(** * fbclock: a clock drawn on the Linux framebuffer console

    A shallow embedding of [fbclock.c] and the properties of its rendering
    pipeline: the glyph rasterizer [draw_char], the strip eraser
    [clear_time], the text composer ([get_asctime],
    [add_power_level_to_text]) and the render loop [run_clock].

    Conventions of the embedding.
    - The fields of [struct fb_fix_screeninfo] and [struct fb_var_screeninfo]
      are [__u32]; arithmetic that C performs in [unsigned int] is written
      with [wrap32].  Arithmetic on [int] is left in [Z]: signed overflow is
      undefined in C and none of the values of the render loop reaches it.
    - A pointer into the mapping is its byte offset from [clock->video], an
      unbounded [Z]: on the 64-bit targets an [unsigned] offset is
      zero-extended before it is added to a pointer.
    - A function that writes memory returns the byte stores it performs, in
      program order.  [replay] applies stores to the mapped bytes and is
      undefined ([None]) as soon as one store misses the mapping.
    - Loops whose exit depends on data carry fuel and return [None] when it
      runs out; the theorems show that this never happens. *)

From Stdlib Require Import ZArith Lia Bool Ascii String.
From stdpp Require Import base tactics option list list_numbers.

Local Open Scope Z_scope.

(** ** C integer arithmetic *)

Definition wrap32 (z : Z) : Z := z mod 2 ^ 32.

(** Conversion of an [unsigned int] value to [int] (two's complement). *)
Definition to_int32 (z : Z) : Z :=
  let u := wrap32 z in if u <? 2 ^ 31 then u else u - 2 ^ 32.

(** ** Constants and the clock record *)

Definition FONT_WIDTH : Z := 8.
Definition FONT_HEIGHT : Z := 8.
Definition MAX_TEXT_LEN : Z := 128.

(** The fields of [linux/fb.h] that the program reads. *)
Record fb_fix_screeninfo := {
  smem_len : Z;
  line_length : Z
}.

Record fb_var_screeninfo := {
  xres : Z;
  yres : Z;
  bits_per_pixel : Z
}.

Record FBClock := {
  capacity : option string;
  finfo : fb_fix_screeninfo;
  vinfo : fb_var_screeninfo
}.

Definition is_u32 (z : Z) : Prop := 0 <= z < 2 ^ 32.

(** What the two ioctls can return: every field is a [__u32]. *)
Definition wf_geometry (clock : FBClock) : Prop :=
  is_u32 (smem_len (finfo clock)) /\
  is_u32 (line_length (finfo clock)) /\
  is_u32 (xres (vinfo clock)) /\
  is_u32 (yres (vinfo clock)) /\
  is_u32 (bits_per_pixel (vinfo clock)).

(** ** Byte stores and the mapped surface *)

(** One byte stored at an offset from [clock->video]. *)
Definition store : Type := Z * Z.

(** [memset(s, c, n)]: [n] stores of [c] at [s], [s+1], ... *)
Definition memset (s c n : Z) : list store :=
  (fun a => (a, c)) <$> seqZ s n.

Definition store_byte (w : store) (mem : list Z) : option (list Z) :=
  if (0 <=? w.1) && (w.1 <? Z.of_nat (length mem))
  then Some (<[Z.to_nat w.1 := w.2]> mem)
  else None.

Fixpoint replay (ws : list store) (mem : list Z) : option (list Z) :=
  match ws with
  | [] => Some mem
  | w :: ws' =>
    match store_byte w mem with
    | Some mem' => replay ws' mem'
    | None => None
    end
  end.

Definition in_surface (clock : FBClock) (w : store) : Prop :=
  0 <= w.1 < smem_len (finfo clock).

(** ** The rasterizer and the eraser *)

(** [font8x8_basic[ch][row]] of the header [font8x8_basic.h], which is not
    part of the sources at hand: the table is a parameter of the
    development. *)
Class GlyphTable := font8x8_basic : Z -> Z -> Z.

Definition bytes_per_pixel (clock : FBClock) : Z :=
  bits_per_pixel (vinfo clock) / 8.

(** [y * clock->finfo.line_length + x * bytes_per_pixel]: the first product
    is computed in [unsigned int], the second in [int]. *)
Definition char_origin (clock : FBClock) (x y : Z) : Z :=
  wrap32 (y * line_length (finfo clock)) + x * bytes_per_pixel clock.

(** [clock->finfo.line_length - FONT_WIDTH * bytes_per_pixel], in
    [unsigned int]. *)
Definition row_gap (clock : FBClock) : Z :=
  wrap32 (line_length (finfo clock) - FONT_WIDTH * bytes_per_pixel clock).

(** The loop [while (char_bit < 256)] of [draw_char]; returns the write
    cursor after the row and the stores of the row. *)
Fixpoint draw_bits (fuel : nat) (glyph_row bpp char_bit video_offset : Z)
  : option (Z * list store) :=
  if char_bit <? 256 then
    match fuel with
    | O => None
    | S fuel' =>
      let w :=
        if negb (Z.land glyph_row char_bit =? 0)
        then memset video_offset 255 bpp
        else memset video_offset 0 bpp in
      match draw_bits fuel' glyph_row bpp (Z.shiftl char_bit 1)
                      (video_offset + bpp) with
      | Some (p, ws) => Some (p, w ++ ws)
      | None => None
      end
    end
  else Some (video_offset, []).

(** The loop [for (char_row = 0; char_row < FONT_HEIGHT; char_row++)]. *)
Fixpoint draw_rows `{GlyphTable} (fuel : nat) (clock : FBClock)
  (ch char_row video_offset : Z) : option (Z * list store) :=
  if char_row <? FONT_HEIGHT then
    match fuel with
    | O => None
    | S fuel' =>
      match draw_bits 8 (font8x8_basic ch char_row) (bytes_per_pixel clock)
                      1 video_offset with
      | Some (p, w) =>
        match draw_rows fuel' clock ch (char_row + 1) (p + row_gap clock) with
        | Some (q, ws) => Some (q, w ++ ws)
        | None => None
        end
      | None => None
      end
    end
  else Some (video_offset, []).

Definition draw_char `{GlyphTable} (clock : FBClock) (x y ch : Z)
  : option (Z * list store) :=
  draw_rows 8 clock ch 0 (char_origin clock x y).

(** [y * clock->finfo.line_length] and [FONT_HEIGHT * line_length], both in
    [unsigned int]. *)
Definition strip_start (clock : FBClock) (y : Z) : Z :=
  wrap32 (y * line_length (finfo clock)).

Definition strip_bytes (clock : FBClock) : Z :=
  wrap32 (FONT_HEIGHT * line_length (finfo clock)).

Definition clear_time (clock : FBClock) (y : Z) : list store :=
  memset (strip_start clock y) 0 (strip_bytes clock).

(** The rendering of a glyph in closed form: the byte of a pixel, the
    distance between the cursor positions of two consecutive rows, the
    cursor at row [r] and column [col], and the stores of the 64 pixels. *)
Definition pixel_byte (glyph_row col : Z) : Z :=
  if Z.testbit glyph_row col then 255 else 0.

Definition pitch (clock : FBClock) : Z :=
  FONT_WIDTH * bytes_per_pixel clock + row_gap clock.

Definition cursor (clock : FBClock) (x y r col : Z) : Z :=
  char_origin clock x y + r * pitch clock + col * bytes_per_pixel clock.

Definition glyph_stores `{GlyphTable} (clock : FBClock) (x y ch : Z)
  : list store :=
  r ← seqZ 0 FONT_HEIGHT;
  col ← seqZ 0 FONT_WIDTH;
  memset (cursor clock x y r col) (pixel_byte (font8x8_basic ch r) col)
         (bytes_per_pixel clock).

(** ** The text composer *)

(** [struct tm]; the program only passes it from [localtime] to
    [asctime]. *)
Record tm := {
  tm_sec : Z; tm_min : Z; tm_hour : Z; tm_mday : Z; tm_mon : Z;
  tm_year : Z; tm_wday : Z; tm_yday : Z; tm_isdst : Z
}.

(** An open stream: the data still to be read and its error flag. *)
Record FILE := {
  f_data : string;
  f_error : bool
}.

(** What the C library and the kernel answer during one tick. *)
Record world := {
  time : option Z;                 (* [None] is [(time_t)-1] *)
  localtime : Z -> option tm;      (* [None] is [NULL] *)
  asctime : tm -> option string;   (* [None] is [NULL] *)
  fopen : string -> option FILE;   (* [fopen(path, "r")]; [None] is [NULL] *)
  stale_capacity : string          (* the string found in the uninitialised
                                      [capacity[4]] when nothing is stored *)
}.

Definition char_code (a : ascii) : Z := Z.of_N (N_of_ascii a).

Definition isspace (a : ascii) : bool :=
  (char_code a =? 32) || ((9 <=? char_code a) && (char_code a <=? 13)).

Definition isdigit (a : ascii) : bool :=
  (48 <=? char_code a) && (char_code a <=? 57).

Fixpoint skip_spaces (s : string) : string :=
  match s with
  | String a s' => if isspace a then skip_spaces s' else s
  | EmptyString => EmptyString
  end.

Fixpoint atoi_digits (s : string) (acc : Z) : Z :=
  match s with
  | String a s' =>
    if isdigit a then atoi_digits s' (10 * acc + (char_code a - 48)) else acc
  | EmptyString => acc
  end.

(** [atoi]: optional white space, optional sign, decimal digits; the
    result is an [int]. *)
Definition atoi (s : string) : Z :=
  to_int32
    match skip_spaces s with
    | String "-" s' => - atoi_digits s' 0
    | String "+" s' => atoi_digits s' 0
    | s' => atoi_digits s' 0
    end.

Definition newline : ascii := ascii_of_nat 10.

(** The characters [fgets] stores: at most [n], stopping after a newline. *)
Fixpoint fgets_line (n : nat) (data : string) : string :=
  match n, data with
  | S n', String a rest =>
    String a (if Ascii.eqb a newline then EmptyString else fgets_line n' rest)
  | _, _ => EmptyString
  end.

(** [fgets(buf, size, file)]: [None] is [NULL] (error, or end of file with
    no character read), and then [buf] is not written. *)
Definition fgets (size : nat) (file : FILE) : option string :=
  if f_error file then None
  else match f_data file with
       | EmptyString => None
       | data => Some (fgets_line (size - 1) data)
       end.

Definition digit_char (d : Z) : ascii := ascii_of_N (Z.to_N (48 + d)).

Fixpoint print_digits (fuel : nat) (n : Z) (acc : string) : string :=
  match fuel with
  | O => acc
  | S fuel' =>
    let acc' := String (digit_char (n mod 10)) acc in
    if n <? 10 then acc' else print_digits fuel' (n / 10) acc'
  end.

(** The conversion [%d] of an [int]: at most ten digits. *)
Definition print_d (n : Z) : string :=
  if n <? 0 then String "-" (print_digits 10 (- n) EmptyString)
  else print_digits 10 n EmptyString.

(** [sprintf(text, "- %d%%", n)]. *)
Definition sprintf_level (n : Z) : string :=
  ("- " ++ print_d n ++ "%")%string.

Definition time_placeholder : string := "Error getting time!".

(** The string of [asctime(localtime(&now))], when every call succeeds. *)
Definition time_string (w : world) : option string :=
  match time w with
  | Some now =>
    match localtime w now with
    | Some local => asctime w local
    | None => None
    end
  | None => None
  end.

(** [get_asctime(text)]: the string copied into [text]. *)
Definition get_asctime (w : world) : string :=
  match time w with
  | Some now =>
    let time_string :=
      match localtime w now with
      | Some local => asctime w local
      | None => None
      end in
    match time_string with
    | Some s => s
    | None => time_placeholder
    end
  | None => time_placeholder
  end.

(** [add_power_level_to_text(clock, text)], [path] being
    [clock->capacity].  The result of [fgets] is not tested: when it stores
    nothing, [atoi] reads the array as it was. *)
Definition add_power_level_to_text (w : world) (path : string) (text : string)
  : string :=
  match fopen w path with
  | Some file =>
    let capacity :=
      match fgets 4 file with
      | Some line => line
      | None => stale_capacity w
      end in
    (text ++ sprintf_level (atoi capacity))%string
  | None => text
  end.

(** The text of one tick, lines 178 to 182 of [run_clock]. *)
Definition compose_text (w : world) (clock : FBClock) : string :=
  let text := get_asctime w in
  match capacity clock with
  | Some path => add_power_level_to_text w path text
  | None => text
  end.

(** Bytes that [strcpy] or [sprintf] store for a string that ends at
    length [s] of [text]: the characters and the terminator. *)
Definition text_extent (s : string) : Z := Z.of_nat (String.length s) + 1.

(** ** The render loop *)

(** [y = clock->vinfo.yres - FONT_HEIGHT - 2], computed in [unsigned int]
    and stored in an [int]. *)
Definition clock_y (clock : FBClock) : Z :=
  to_int32 (yres (vinfo clock) - FONT_HEIGHT - 2).

Definition text_char (text : string) (i : nat) : Z :=
  match String.get i text with
  | Some a => char_code a
  | None => 0
  end.

(** The loop [while (i >= 0)] entered with [i = n - 1]. *)
Fixpoint draw_text `{GlyphTable} (clock : FBClock) (x y : Z) (text : string)
  (n : nat) : option (list store) :=
  match n with
  | O => Some []
  | S i =>
    let p := x + Z.of_nat i * FONT_WIDTH in
    match draw_char clock p y (text_char text i) with
    | Some (_, w) =>
      match draw_text clock x y text i with
      | Some ws => Some (w ++ ws)
      | None => None
      end
    | None => None
    end
  end.

(** The stores of one tick: [clear_time], then the characters from the
    last one to the first. *)
Definition tick_stores `{GlyphTable} (clock : FBClock) (x : Z) (text : string)
  : option (list store) :=
  match draw_text clock x (clock_y clock) text (String.length text) with
  | Some ws => Some (clear_time clock (clock_y clock) ++ ws)
  | None => None
  end.

(** Lines 193 to 197: [x += dx], then the bounce test. *)
Definition bounce (x dx : Z) : Z :=
  if (x >? 20) || (x <? 6) then - dx else dx.

Definition tick_update (p : Z * Z) : Z * Z :=
  let x := p.1 + p.2 in (x, bounce x p.2).

(** The position and direction after [n] ticks. *)
Definition drift (n : nat) : Z * Z := Nat.iter n tick_update (5, 1).

(** Program points of [run_clock], one per statement of the loop. *)
Inductive label :=
  | L_while | L_get_asctime | L_add_power | L_clear_time | L_draw
  | L_advance | L_bounce | L_sleep | L_munmap | L_close | L_return.

Inductive event :=
  | EvStore (w : store)
  | EvSleep (seconds : Z)
  | EvMunmap (len : Z)
  | EvClose.

Record machine := Machine {
  pc : label;
  g_running : Z;
  m_x : Z;
  m_dx : Z;
  m_text : string;
  m_tick : nat;
  m_events : list event
}.

(** [handle_signal]: [g_running = 0]. *)
Definition handle_signal (s : machine) : machine :=
  Machine (pc s) 0 (m_x s) (m_dx s) (m_text s) (m_tick s) (m_events s).

Definition goto (l : label) (s : machine) : machine :=
  Machine l (g_running s) (m_x s) (m_dx s) (m_text s) (m_tick s) (m_events s).

Definition emit (evs : list event) (s : machine) : machine :=
  Machine (pc s) (g_running s) (m_x s) (m_dx s) (m_text s) (m_tick s)
          (m_events s ++ evs).

Definition set_text (t : string) (s : machine) : machine :=
  Machine (pc s) (g_running s) (m_x s) (m_dx s) t (m_tick s) (m_events s).

(** One statement of [run_clock]; [W n] is the world of tick [n]. *)
Definition step `{GlyphTable} (W : nat -> world) (clock : FBClock) (s : machine)
  : machine :=
  match pc s with
  | L_while =>
    if g_running s =? 0 then goto L_munmap s else goto L_get_asctime s
  | L_get_asctime =>
    goto L_add_power (set_text (get_asctime (W (m_tick s))) s)
  | L_add_power =>
    goto L_clear_time
      match capacity clock with
      | Some path =>
        set_text (add_power_level_to_text (W (m_tick s)) path (m_text s)) s
      | None => s
      end
  | L_clear_time =>
    goto L_draw (emit (EvStore <$> clear_time clock (clock_y clock)) s)
  | L_draw =>
    match draw_text clock (m_x s) (clock_y clock) (m_text s)
                    (String.length (m_text s)) with
    | Some ws => goto L_advance (emit (EvStore <$> ws) s)
    | None => s
    end
  | L_advance =>
    Machine L_bounce (g_running s) (m_x s + m_dx s) (m_dx s) (m_text s)
            (m_tick s) (m_events s)
  | L_bounce =>
    Machine L_sleep (g_running s) (m_x s) (bounce (m_x s) (m_dx s)) (m_text s)
            (m_tick s) (m_events s)
  | L_sleep =>
    Machine L_while (g_running s) (m_x s) (m_dx s) (m_text s) (S (m_tick s))
            (m_events s ++ [EvSleep 1])
  | L_munmap =>
    goto L_close (emit [EvMunmap (smem_len (finfo clock))] s)
  | L_close => goto L_return (emit [EvClose] s)
  | L_return => s
  end.

(** What happens next: a statement of [run_clock], or the delivery of
    [SIGINT]. *)
Inductive action := Run | Sigint.

Definition perform `{GlyphTable} (W : nat -> world) (clock : FBClock)
  (s : machine) (a : action) : machine :=
  match a with
  | Run => step W clock s
  | Sigint => handle_signal s
  end.

Definition exec `{GlyphTable} (W : nat -> world) (clock : FBClock)
  (acts : list action) (s : machine) : machine :=
  fold_left (perform W clock) acts s.

(** [run_clock] is entered with [g_running = 1], [dx = 1], [x = 5]. *)
Definition run_clock_init : machine :=
  Machine L_while 1 5 1 EmptyString 0 [].

Definition is_release (e : event) : bool :=
  match e with
  | EvMunmap _ | EvClose => true
  | _ => false
  end.

Definition releases (s : machine) : list event :=
  List.filter is_release (m_events s).

#[global] Instance event_eq_dec : EqDecision event.
Proof. solve_decision. Defined.

Definition is_run (a : action) : bool :=
  match a with
  | Run => true
  | Sigint => false
  end.

(** Number of statements executed by a schedule. *)
Definition runs (acts : list action) : nat :=
  length (List.filter is_run acts).

(** Statements left before [run_clock] returns once the flag is down. *)
Definition distance (l : label) : nat :=
  match l with
  | L_get_asctime => 10 | L_add_power => 9 | L_clear_time => 8 | L_draw => 7
  | L_advance => 6 | L_bounce => 5 | L_sleep => 4 | L_while => 3
  | L_munmap => 2 | L_close => 1 | L_return => 0
  end%nat.

(** The statements of the loop body, and the one that follows each. *)
Definition in_tick (l : label) : bool :=
  match l with
  | L_get_asctime | L_add_power | L_clear_time | L_draw
  | L_advance | L_bounce | L_sleep => true
  | _ => false
  end.

Definition next_in_tick (l : label) : label :=
  match l with
  | L_get_asctime => L_add_power
  | L_add_power => L_clear_time
  | L_clear_time => L_draw
  | L_draw => L_advance
  | L_advance => L_bounce
  | L_bounce => L_sleep
  | _ => L_while
  end.

Definition expected_releases (clock : FBClock) (l : label) : list event :=
  match l with
  | L_return => [EvMunmap (smem_len (finfo clock)); EvClose]
  | L_close => [EvMunmap (smem_len (finfo clock))]
  | _ => []
  end.

(** Invariants of the loop state: position and direction at the top of a
    tick, and between [x += dx] and the bounce test. *)
Definition drift_inv (p : Z * Z) : Prop :=
  (p.2 = 1 /\ 5 <= p.1 <= 20) \/ (p.2 = -1 /\ 6 <= p.1 <= 21).

Definition advanced_inv (p : Z * Z) : Prop :=
  (p.2 = 1 /\ 6 <= p.1 <= 21) \/ (p.2 = -1 /\ 5 <= p.1 <= 20).

Definition position_inv (s : machine) : Prop :=
  match pc s with
  | L_bounce => advanced_inv (m_x s, m_dx s)
  | _ => drift_inv (m_x s, m_dx s)
  end.



(** ** Concrete devices, glyphs and worlds *)

(** The glyph of the letter A in [font8x8_basic.h]; the other glyphs of
    this table are blank. *)
Definition glyph_A : list Z :=
  [0x0C; 0x1E; 0x33; 0x33; 0x3F; 0x33; 0x33; 0x00].

Definition font_A_only : GlyphTable :=
  fun ch row => if ch =? 65 then nth (Z.to_nat row) glyph_A 0 else 0.

Definition framebuffer (cap : option string) (len stride w h bpp : Z)
  : FBClock :=
  {| capacity := cap;
     finfo := {| smem_len := len; line_length := stride |};
     vinfo := {| xres := w; yres := h; bits_per_pixel := bpp |} |}.

Definition battery_path : string := "/sys/class/power_supply/BAT0/capacity".

(** 640x480 at 32 bits per pixel. *)
Definition fb_vga : FBClock := framebuffer None 1228800 2560 640 480 32.

Definition fb_vga_battery : FBClock :=
  framebuffer (Some battery_path) 1228800 2560 640 480 32.

(** A 64x64 panel at 16 bits per pixel. *)
Definition fb_64x64 : FBClock := framebuffer None 8192 128 64 64 16.


(** Sixteen rows of eight bytes, one byte per pixel. *)
Definition fb_8x16 : FBClock := framebuffer None 128 8 8 16 8.

Definition jan1_2020 : string :=
  ("Wed Jan  1 00:00:00 2020" ++ String newline EmptyString)%string.

Definition tm_jan1_2020 : tm :=
  {| tm_sec := 0; tm_min := 0; tm_hour := 0; tm_mday := 1; tm_mon := 0;
     tm_year := 120; tm_wday := 3; tm_yday := 0; tm_isdst := 0 |}.

(** The contents of a capacity file: [87] and a newline. *)
Definition capacity_87 : string :=
  ("87" ++ String newline EmptyString)%string.

Definition capacity_file (data : string) : FILE :=
  {| f_data := data; f_error := false |}.

(** The clock works and no file can be opened. *)
Definition world_jan1 : world :=
  {| time := Some 1577836800;
     localtime := fun _ => Some tm_jan1_2020;
     asctime := fun _ => Some jan1_2020;
     fopen := fun _ => None;
     stale_capacity := EmptyString |}.

(** The capacity file holds [87]. *)
Definition world_battery_87 : world :=
  {| time := Some 1577836800;
     localtime := fun _ => Some tm_jan1_2020;
     asctime := fun _ => Some jan1_2020;
     fopen := fun _ => Some (capacity_file capacity_87);
     stale_capacity := EmptyString |}.

(** [time] fails and the capacity file holds [87]. *)
Definition world_no_time : world :=
  {| time := None;
     localtime := fun _ => Some tm_jan1_2020;
     asctime := fun _ => Some jan1_2020;
     fopen := fun _ => Some (capacity_file capacity_87);
     stale_capacity := EmptyString |}.

(** The capacity file opens and is empty: [fgets] returns [NULL]. *)
Definition world_empty_capacity : world :=
  {| time := Some 1577836800;
     localtime := fun _ => Some tm_jan1_2020;
     asctime := fun _ => Some jan1_2020;
     fopen := fun _ => Some (capacity_file EmptyString);
     stale_capacity := EmptyString |}.

(** ** Start-up: [get_title], [get_arguments], [map_framebuffer], [main] *)

(** The fields of the C [FBClock] that only the start-up code uses, beside
    the three that the renderer reads. *)
Record FBDevice := {
  dev_clock : FBClock;
  fbdev : string;
  title : string;
  file : Z;
  video : option Z                 (* the mapping; [None] is [MAP_FAILED] *)
}.

Definition set_clock (c : FBClock) (d : FBDevice) : FBDevice :=
  {| dev_clock := c; fbdev := fbdev d; title := title d; file := file d;
     video := video d |}.

(** [strrchr(s, c)]: the suffix of [s] that starts at the last [c]. *)
Fixpoint strrchr (s : string) (c : ascii) : option string :=
  match s with
  | EmptyString => None
  | String a s' =>
    match strrchr s' c with
    | Some r => Some r
    | None => if Ascii.eqb a c then Some s else None
    end
  end.

(** The string one character further, as [title++] moves the pointer. *)
Definition string_tail (s : string) : string :=
  match s with
  | String _ s' => s'
  | EmptyString => EmptyString
  end.

(** [get_title(clock, path)]: the value stored in [clock->title]. *)
Definition get_title (path : string) : string :=
  match strrchr path "/" with
  | None => path
  | Some r => string_tail r
  end.

Fixpoint has_char (c : ascii) (s : string) : bool :=
  match s with
  | EmptyString => false
  | String a s' => Ascii.eqb a c || has_char c s'
  end.

(** What the process asks of the system, in program order. *)
Inductive call :=
  | CallOpen (path : string)
  | CallIoctlFix (fd : Z)
  | CallIoctlVar (fd : Z)
  | CallMmap (len fd : Z)
  | CallClose (fd : Z)
  | CallStderr (line : string)
  | CallFork
  | CallSetsid
  | CallChdir (path : string)
  | CallSignal (sig : Z).

(** The answers of the system to the start-up code. *)
Record kernel := {
  sys_open : string -> Z;                             (* a descriptor or -1 *)
  sys_fscreeninfo : Z -> option fb_fix_screeninfo;    (* [None] is -1 *)
  sys_vscreeninfo : Z -> option fb_var_screeninfo;    (* [None] is -1 *)
  sys_mmap : Z -> Z -> option Z;                   (* [None] is [MAP_FAILED] *)
  sys_fork : Z;
  sys_setsid : Z
}.

Definition line_end : string := String newline EmptyString.

(** [get_framebuffer_info]: the status, the record and the calls made.  A
    failed [ioctl] leaves the record as it was. *)
Definition get_framebuffer_info (k : kernel) (d : FBDevice)
  : Z * FBDevice * list call :=
  match sys_fscreeninfo k (file d) with
  | None =>
    (-1, d,
     [CallIoctlFix (file d);
      CallStderr (title d ++ ": ioctl (FBIOGET_FSCREENINFO) in "
                  ++ "get_framebuffer_info" ++ " failed. " ++ line_end)%string])
  | Some fixed =>
    let d1 :=
      set_clock {| capacity := capacity (dev_clock d); finfo := fixed;
                   vinfo := vinfo (dev_clock d) |} d in
    match sys_vscreeninfo k (file d) with
    | None =>
      (-1, d1,
       [CallIoctlFix (file d); CallIoctlVar (file d);
        CallStderr (title d ++ ": ioctl (FBIOGET_VSCREENINFO) in "
                    ++ "get_framebuffer_info" ++ " failed. "
                    ++ line_end)%string])
    | Some variable =>
      (0,
       set_clock {| capacity := capacity (dev_clock d); finfo := fixed;
                    vinfo := variable |} d,
       [CallIoctlFix (file d); CallIoctlVar (file d)])
    end
  end.

Definition set_file (fd : Z) (d : FBDevice) : FBDevice :=
  {| dev_clock := dev_clock d; fbdev := fbdev d; title := title d; file := fd;
     video := video d |}.

Definition set_video (v : option Z) (d : FBDevice) : FBDevice :=
  {| dev_clock := dev_clock d; fbdev := fbdev d; title := title d;
     file := file d; video := v |}.

(** [map_framebuffer]: 0 when the device is mapped, 1 otherwise. *)
Definition map_framebuffer (k : kernel) (d : FBDevice)
  : Z * FBDevice * list call :=
  let d1 := set_file (sys_open k (fbdev d)) d in
  if file d1 =? -1 then
    (1, d1,
     [CallOpen (fbdev d);
      CallStderr (title d ++ ": open(" ++ String (ascii_of_nat 34) (fbdev d)
                  ++ String (ascii_of_nat 34) ", O_RDWR | O_NONBLOCK) in "
                  ++ "map_framebuffer" ++ " failed. " ++ line_end)%string])
  else
    let '(status, d2, calls) := get_framebuffer_info k d1 in
    if negb (status =? -1) then
      let len := smem_len (finfo (dev_clock d2)) in
      let d3 := set_video (sys_mmap k len (file d2)) d2 in
      match video d3 with
      | Some _ =>
        (0, d3, CallOpen (fbdev d) :: calls ++ [CallMmap len (file d2)])
      | None =>
        (1, d3,
         CallOpen (fbdev d) :: calls ++
         [CallMmap len (file d2); CallClose (file d2);
          CallStderr (title d ++ ": mmap in " ++ "map_framebuffer"
                      ++ " failed. " ++ line_end)%string])
      end
    else (1, d2, CallOpen (fbdev d) :: calls).

(** One answer of [getopt(argc, argv, "b:f:")]: the option character and
    [optarg]; the list ends where [getopt] returns -1.  The answers are
    [b] and [f], with their argument, and [?] for an option that is
    unknown or lacks its argument.  [opterr] is never cleared, so before
    it answers [?] [getopt] has written a line of its own to [stderr]:
    with the answer [?] the string is that line. *)
Definition getopt_result : Type := ascii * string.

(** What [getopt] itself has written when it gives the answer [o]. *)
Definition getopt_report (o : getopt_result) : list call :=
  if Ascii.eqb o.1 "?" then [CallStderr o.2] else [].

Definition usage (title : string) : list call :=
  [CallStderr ("Usage: " ++ title ++ " [-b PATH] [ -f DEVICE ]"
               ++ line_end)%string;
   CallStderr ("PATH is path to battery capacity file." ++ line_end)%string;
   CallStderr ("DEVICE is framebuffer device (default /dev/fb0)."
               ++ line_end)%string].

Definition set_capacity (cap : option string) (d : FBDevice) : FBDevice :=
  set_clock {| capacity := cap; finfo := finfo (dev_clock d);
               vinfo := vinfo (dev_clock d) |} d.

Definition set_fbdev (path : string) (d : FBDevice) : FBDevice :=
  {| dev_clock := dev_clock d; fbdev := path; title := title d;
     file := file d; video := video d |}.

(** The loop [while ((opt = getopt(...)) != -1)] of [get_arguments];
    [strdup] is taken to succeed. *)
Fixpoint getopt_loop (opts : list getopt_result) (d : FBDevice)
  : Z * FBDevice * list call :=
  match opts with
  | [] => (0, d, [])
  | (opt, optarg) :: rest =>
    if Ascii.eqb opt "b" then getopt_loop rest (set_capacity (Some optarg) d)
    else if Ascii.eqb opt "f" then getopt_loop rest (set_fbdev optarg d)
    else (1, d, getopt_report (opt, optarg) ++ usage (title d))
  end.

Definition get_arguments (opts : list getopt_result) (d : FBDevice)
  : Z * FBDevice * list call :=
  getopt_loop opts (set_fbdev "/dev/fb0" (set_capacity None d)).

Definition set_title (t : string) (d : FBDevice) : FBDevice :=
  {| dev_clock := dev_clock d; fbdev := fbdev d; title := t; file := file d;
     video := video d |}.

Definition SIGINT : Z := 2.

(** How [main] ends: with an exit status, or in [run_clock], entered with
    the record shown, after which [main] returns 0. *)
Inductive outcome :=
  | Exit (status : Z)
  | Daemon (d : FBDevice).

(** [main]: [argv0] is [argv[0]], [opts] the answers of [getopt], [d] the
    record as found on the stack. *)
Definition main (k : kernel) (argv0 : string) (opts : list getopt_result)
  (d : FBDevice) : outcome * list call :=
  let d0 := set_title (get_title argv0) d in
  let '(status, d1, c1) := get_arguments opts d0 in
  if negb (status =? 0) then (Exit 1, c1)
  else
    let '(status, d2, c2) := map_framebuffer k d1 in
    if negb (status =? 0) then (Exit 1, c1 ++ c2)
    else
      let pid := sys_fork k in
      if pid <? 0 then (Exit 1, c1 ++ c2 ++ [CallFork])
      else if pid >? 0 then (Exit 0, c1 ++ c2 ++ [CallFork])
      else
        let sid := sys_setsid k in
        if sid <? 0 then (Exit 2, c1 ++ c2 ++ [CallFork; CallSetsid])
        else
          (Daemon d2,
           c1 ++ c2 ++
           [CallFork; CallSetsid; CallChdir "/";
            CallClose 0; CallClose 1; CallClose 2; CallSignal SIGINT]).

(** The arguments of the options [c] among the answers of [getopt]. *)
Definition optargs (c : ascii) (opts : list getopt_result) : list string :=
  snd <$> List.filter (fun o => Ascii.eqb o.1 c) opts.

Definition valid_option (o : getopt_result) : bool :=
  Ascii.eqb o.1 "b" || Ascii.eqb o.1 "f".

(** The first answer of [getopt] that [get_arguments] rejects. *)
Definition rejected_option (opts : list getopt_result)
  : option getopt_result :=
  List.find (fun o => negb (valid_option o)) opts.

(** The line of [getopt] for an unknown option [x] of [./fbclock]. *)
Definition getopt_line_x : string :=
  ("./fbclock: invalid option -- 'x'" ++ line_end)%string.

(** The record of [main] before anything is stored in it. *)
Definition device_on_stack (c : FBClock) : FBDevice :=
  {| dev_clock := c; fbdev := EmptyString; title := EmptyString; file := 0;
     video := None |}.

Definition is_stderr (c : call) : bool :=
  match c with
  | CallStderr _ => true
  | _ => false
  end.

Definition is_mmap (c : call) : bool :=
  match c with
  | CallMmap _ _ => true
  | _ => false
  end.

Definition is_close (c : call) : bool :=
  match c with
  | CallClose _ => true
  | _ => false
  end.

(** A kernel with a 640x480 frame buffer behind descriptor 3; the process
    is the child of [fork]. *)
Definition kernel_vga : kernel :=
  {| sys_open := fun _ => 3;
     sys_fscreeninfo := fun _ => Some (finfo fb_vga);
     sys_vscreeninfo := fun _ => Some (vinfo fb_vga);
     sys_mmap := fun _ _ => Some 4096;
     sys_fork := 0;
     sys_setsid := 77 |}.

(** The same, with a variable screen information that cannot be read. *)
Definition kernel_no_vinfo : kernel :=
  {| sys_open := fun _ => 3;
     sys_fscreeninfo := fun _ => Some (finfo fb_vga);
     sys_vscreeninfo := fun _ => None;
     sys_mmap := fun _ _ => Some 4096;
     sys_fork := 0;
     sys_setsid := 77 |}.

(** The device that [main] opens: the argument of the last [-f]. *)
Definition device_path (opts : list getopt_result) : string :=
  default "/dev/fb0"%string (last (optargs "f" opts)).

(** The options are accepted and the frame buffer behind them is mapped,
    with the answers [fixed], [variable] and [addr] of the kernel. *)
Definition startup_ok (k : kernel) (opts : list getopt_result)
  (fixed : fb_fix_screeninfo) (variable : fb_var_screeninfo) (addr : Z)
  : Prop :=
  forallb valid_option opts = true /\
  sys_open k (device_path opts) <> -1 /\
  sys_fscreeninfo k (sys_open k (device_path opts)) = Some fixed /\
  sys_vscreeninfo k (sys_open k (device_path opts)) = Some variable /\
  sys_mmap k (smem_len fixed) (sys_open k (device_path opts)) = Some addr.

Definition is_fork (c : call) : bool :=
  match c with
  | CallFork => true
  | _ => false
  end.

Definition is_open (c : call) : bool :=
  match c with
  | CallOpen _ => true
  | _ => false
  end.

(** The calls of a start-up that reaches [fork]. *)
Definition startup_calls (opts : list getopt_result)
  (fixed : fb_fix_screeninfo) (fd : Z) : list call :=
  [CallOpen (device_path opts); CallIoctlFix fd; CallIoctlVar fd;
   CallMmap (smem_len fixed) fd; CallFork].

(** The calls by which the child detaches before it enters [run_clock]. *)
Definition detach_calls : list call :=
  [CallSetsid; CallChdir "/"; CallClose 0; CallClose 1; CallClose 2;
   CallSignal SIGINT].

(** Twelve rows of 32 bytes, one byte per pixel. *)
Definition fb_32x12 : FBClock := framebuffer None 384 32 32 12 8.

(** A panel of four bits per pixel. *)
Definition fb_4bpp : FBClock := framebuffer None 153600 320 640 480 4.

Definition in_loop (l : label) : bool :=
  match l with
  | L_munmap | L_close | L_return => false
  | _ => true
  end.

(** What [add_power_level_to_text] reads from a capacity file that holds
    the number [n] and a newline. *)
Definition capacity_read (n : Z) : option Z :=
  atoi <$> fgets 4 (capacity_file (print_d n ++ line_end)).

(** The capacity file holds the number [n] on a line. *)
Definition world_capacity (n : Z) : world :=
  {| time := Some 1577836800;
     localtime := fun _ => Some tm_jan1_2020;
     asctime := fun _ => Some jan1_2020;
     fopen := fun _ => Some (capacity_file (print_d n ++ line_end));
     stale_capacity := EmptyString |}.


(** * Properties *)

(** ** Arithmetic *)

Lemma wrap32_small z : 0 <= z < 2 ^ 32 -> wrap32 z = z.
Proof. intros Hz. unfold wrap32. by apply Z.mod_small. Qed.

Lemma wrap32_range z : 0 <= wrap32 z < 2 ^ 32.
Proof. unfold wrap32. apply Z.mod_pos_bound. lia. Qed.

Lemma wrap32_to_int32_mul a b : wrap32 (to_int32 a * b) = wrap32 (a * b).
Proof.
  unfold to_int32, wrap32. cbv zeta.
  destruct (a mod 2 ^ 32 <? 2 ^ 31).
  - by rewrite Z.mul_mod_idemp_l.
  - replace ((a mod 2 ^ 32 - 2 ^ 32) * b)
      with (a mod 2 ^ 32 * b + (- b) * 2 ^ 32) by ring.
    rewrite Z.mod_add by lia. by rewrite Z.mul_mod_idemp_l.
Qed.

Lemma land_pow2_testbit g k :
  0 <= k -> (Z.land g (2 ^ k) =? 0) = negb (Z.testbit g k).
Proof.
  intros Hk. destruct (Z.testbit g k) eqn:Hb; simpl.
  - apply Z.eqb_neq. intros H0.
    apply (f_equal (fun z => Z.testbit z k)) in H0.
    rewrite Z.land_spec, Hb, Z.pow2_bits_true, Z.bits_0 in H0 by done.
    discriminate.
  - apply Z.eqb_eq. apply Z.bits_inj'. intros i Hi.
    rewrite Z.land_spec, Z.bits_0, Z.pow2_bits_eqb by done.
    destruct (Z.eqb_spec k i) as [->|];
      [by rewrite Hb | by rewrite andb_false_r].
Qed.

(** ** Stores and their replay *)

Lemma memset_nil s c n : n <= 0 -> memset s c n = [].
Proof. intros. unfold memset. by rewrite seqZ_nil. Qed.

Lemma memset_cons s c n :
  0 < n -> memset s c n = (s, c) :: memset (s + 1) c (n - 1).
Proof. intros. unfold memset. by rewrite seqZ_cons. Qed.

Lemma length_memset s c n : length (memset s c n) = Z.to_nat n.
Proof. unfold memset. by rewrite length_fmap, length_seqZ. Qed.

Lemma elem_of_memset s c n (w : store) :
  w ∈ memset s c n <-> s <= w.1 < s + n /\ w.2 = c.
Proof.
  unfold memset. rewrite list_elem_of_fmap. setoid_rewrite elem_of_seqZ.
  destruct w as [a v]; simpl. split.
  - intros (z & [= -> ->] & Hz). done.
  - intros [Ha ->]. by exists a.
Qed.

Lemma store_byte_Some w mem mem' :
  store_byte w mem = Some mem' ->
  0 <= w.1 < Z.of_nat (length mem) /\ mem' = <[Z.to_nat w.1 := w.2]> mem.
Proof.
  unfold store_byte.
  destruct (Z.leb_spec 0 w.1), (Z.ltb_spec w.1 (Z.of_nat (length mem)));
    simpl; intros [= <-] || intros [=]; done.
Qed.

Lemma store_byte_in_range w mem :
  0 <= w.1 < Z.of_nat (length mem) ->
  store_byte w mem = Some (<[Z.to_nat w.1 := w.2]> mem).
Proof.
  intros [H1 H2]. unfold store_byte.
  destruct (Z.leb_spec 0 w.1), (Z.ltb_spec w.1 (Z.of_nat (length mem)));
    simpl; done || lia.
Qed.

Lemma replay_app ws1 ws2 mem :
  replay (ws1 ++ ws2) mem = replay ws1 mem ≫= replay ws2.
Proof.
  revert mem. induction ws1 as [|w ws1 IH]; intros mem; simpl; [done|].
  destruct (store_byte w mem); simpl; [apply IH | done].
Qed.

Lemma replay_length ws mem mem' :
  replay ws mem = Some mem' -> length mem' = length mem.
Proof.
  revert mem. induction ws as [|w ws IH]; intros mem; simpl.
  - by intros [= ->].
  - destruct (store_byte w mem) as [mem1|] eqn:Hw; [|done].
    intros Hr. apply IH in Hr. apply store_byte_Some in Hw as [_ ->].
    by rewrite length_insert in Hr.
Qed.

Lemma replay_is_Some ws mem :
  is_Some (replay ws mem) <->
  Forall (fun w : store => 0 <= w.1 < Z.of_nat (length mem)) ws.
Proof.
  revert mem. induction ws as [|w ws IH]; intros mem; simpl.
  - split; [constructor | by eexists].
  - rewrite Forall_cons. split.
    + destruct (store_byte w mem) as [mem1|] eqn:Hw; [|by intros [? [=]]].
      intros Hr. apply store_byte_Some in Hw as [Hin ->].
      apply IH in Hr. by rewrite length_insert in Hr.
    + intros [Hin Hrest]. rewrite store_byte_in_range by done.
      apply IH. by rewrite length_insert.
Qed.

(** Replaying stores of one value [v]: the bytes at the stored addresses
    hold [v], the others are unchanged. *)
Lemma replay_const_lookup v ws mem mem' (i : nat) :
  Forall (fun w : store => w.2 = v) ws ->
  replay ws mem = Some mem' ->
  mem' !! i = if decide (Z.of_nat i ∈ ws.*1) then Some v else mem !! i.
Proof.
  intros Hv. revert mem.
  induction Hv as [|w ws Hw Hv IH]; intros mem; cbn [replay].
  - intros [= ->]. case_decide as Hi; [|done]. by apply elem_of_nil in Hi.
  - destruct (store_byte w mem) as [mem1|] eqn:Hs; [|done].
    intros Hr. rewrite (IH _ Hr).
    apply store_byte_Some in Hs as [Hin ->].
    rewrite fmap_cons.
    destruct (decide (Z.of_nat i ∈ ws.*1)) as [Hi|Hi].
    + case_decide as Hc; [done|]. exfalso. apply Hc. by right.
    + destruct (decide (Z.of_nat i = w.1)) as [He|He].
      * case_decide as Hc; [|exfalso; apply Hc; rewrite He; left].
        replace (Z.to_nat w.1) with i by lia.
        rewrite list_lookup_insert_eq by lia. by rewrite Hw.
      * case_decide as Hc.
        -- apply elem_of_cons in Hc. tauto.
        -- apply list_lookup_insert_ne. lia.
Qed.

(** Stores of one value replayed twice give what they give once. *)
Lemma replay_const_twice v ws mem mem' :
  Forall (fun w : store => w.2 = v) ws ->
  replay ws mem = Some mem' -> replay ws mem' = Some mem'.
Proof.
  intros Hv Hr.
  assert (is_Some (replay ws mem')) as [mem2 H2].
  { apply replay_is_Some. rewrite (replay_length _ _ _ Hr).
    apply replay_is_Some. by eexists. }
  rewrite H2. f_equal. apply list_eq. intros i.
  rewrite (replay_const_lookup v ws mem' mem2 i Hv H2).
  case_decide as Hi; [|done].
  rewrite (replay_const_lookup v ws mem mem' i Hv Hr).
  by rewrite decide_True.
Qed.

Lemma memset_const s c n : Forall (fun w : store => w.2 = c) (memset s c n).
Proof.
  apply Forall_forall. intros w Hw. by apply elem_of_memset in Hw as [_ ->].
Qed.

Lemma elem_of_memset_addr s c n (a : Z) :
  a ∈ (memset s c n).*1 <-> s <= a < s + n.
Proof.
  rewrite list_elem_of_fmap. split.
  - intros (w & -> & Hw). by apply elem_of_memset in Hw as [? _].
  - intros Ha. exists (a, c). split; [done|]. by apply elem_of_memset.
Qed.

(** [memset] on a range of the mapping: defined, and the bytes of the range
    are the only ones that change. *)
Lemma replay_memset s c n mem :
  0 <= s -> s + n <= Z.of_nat (length mem) ->
  exists mem', replay (memset s c n) mem = Some mem' /\
    length mem' = length mem /\
    forall i : nat,
      mem' !! i =
      if decide (s <= Z.of_nat i < s + n) then Some c else mem !! i.
Proof.
  intros Hs Hn.
  assert (is_Some (replay (memset s c n) mem)) as [mem' Hr].
  { apply replay_is_Some, Forall_forall. intros w Hw.
    apply elem_of_memset in Hw as [? _]. lia. }
  exists mem'. split; [done|]. split; [by eapply replay_length|].
  intros i. rewrite (replay_const_lookup c _ _ _ i (memset_const s c n) Hr).
  destruct (decide (Z.of_nat i ∈ (memset s c n).*1)) as [Hi|Hi];
    rewrite elem_of_memset_addr in Hi; case_decide; done.
Qed.

(** ** The rasterizer *)

Section Rasterizer.
Context `{GlyphTable}.

Lemma draw_bits_from n k g bpp base :
  0 <= k -> k + Z.of_nat n = 8 ->
  draw_bits n g bpp (2 ^ k) (base + k * bpp) =
  Some (base + 8 * bpp,
        seqZ k (Z.of_nat n) ≫= fun col =>
          memset (base + col * bpp) (pixel_byte g col) bpp).
Proof.
  revert k. induction n as [|n IH]; intros k Hk Hn.
  - replace k with 8 by lia. reflexivity.
  - cbn [draw_bits].
    assert (2 ^ k <= 2 ^ 7) by (apply Z.pow_le_mono_r; lia).
    destruct (Z.ltb_spec (2 ^ k) 256); [|lia].
    rewrite Z.shiftl_mul_pow2, <- Z.pow_add_r by lia.
    replace (base + k * bpp + bpp) with (base + (k + 1) * bpp) by ring.
    rewrite IH by lia.
    rewrite land_pow2_testbit by done.
    rewrite (seqZ_cons k) by lia.
    replace (Z.pred (Z.of_nat (S n))) with (Z.of_nat n) by lia.
    replace (Z.succ k) with (k + 1) by lia.
    rewrite bind_cons. unfold pixel_byte at 2.
    rewrite negb_involutive. by destruct (Z.testbit g k).
Qed.

Lemma draw_rows_from n r clock ch base :
  0 <= r -> r + Z.of_nat n = 8 ->
  draw_rows n clock ch r (base + r * pitch clock) =
  Some (base + 8 * pitch clock,
        seqZ r (Z.of_nat n) ≫= fun row =>
          seqZ 0 8 ≫= fun col =>
            memset (base + row * pitch clock + col * bytes_per_pixel clock)
                   (pixel_byte (font8x8_basic ch row) col)
                   (bytes_per_pixel clock)).
Proof.
  revert r. induction n as [|n IH]; intros r Hr Hn.
  - replace r with 8 by lia. reflexivity.
  - cbn [draw_rows]. unfold FONT_HEIGHT.
    destruct (Z.ltb_spec r 8); [|lia].
    pose proof (draw_bits_from 8 0 (font8x8_basic ch r) (bytes_per_pixel clock)
                  (base + r * pitch clock)) as Hb.
    rewrite Z.mul_0_l, Z.add_0_r in Hb. change (2 ^ 0) with 1 in Hb.
    rewrite Hb by lia. clear Hb.
    replace (base + r * pitch clock + 8 * bytes_per_pixel clock + row_gap clock)
      with (base + (r + 1) * pitch clock) by (unfold pitch, FONT_WIDTH; ring).
    rewrite IH by lia.
    rewrite (seqZ_cons r) by lia.
    replace (Z.pred (Z.of_nat (S n))) with (Z.of_nat n) by lia.
    replace (Z.succ r) with (r + 1) by lia.
    by rewrite bind_cons.
Qed.

Lemma draw_char_closed clock x y ch :
  draw_char clock x y ch =
  Some (cursor clock x y 8 0, glyph_stores clock x y ch).
Proof.
  unfold draw_char.
  pose proof (draw_rows_from 8 0 clock ch (char_origin clock x y)) as Hr.
  rewrite Z.mul_0_l, Z.add_0_r in Hr. rewrite Hr by lia.
  unfold cursor, glyph_stores, FONT_HEIGHT, FONT_WIDTH.
  do 2 f_equal. ring.
Qed.

Lemma length_bind_const {A B} (f : A -> list B) (l : list A) (n : nat) :
  (forall a, length (f a) = n) -> length (l ≫= f) = (length l * n)%nat.
Proof.
  intros Hf. induction l as [|a l IH]; [done|].
  rewrite bind_cons, length_app, IH, Hf. simpl. lia.
Qed.

Lemma length_glyph_stores clock x y ch :
  0 <= bytes_per_pixel clock ->
  Z.of_nat (length (glyph_stores clock x y ch)) = 64 * bytes_per_pixel clock.
Proof.
  intros Hb. unfold glyph_stores.
  rewrite (length_bind_const _ _ (8 * Z.to_nat (bytes_per_pixel clock))).
  - rewrite length_seqZ. unfold FONT_HEIGHT. lia.
  - intros r.
    rewrite (length_bind_const _ _ (Z.to_nat (bytes_per_pixel clock))).
    + rewrite length_seqZ. unfold FONT_WIDTH. lia.
    + intros col. apply length_memset.
Qed.


Lemma elem_of_glyph_stores clock x y ch (w : store) :
  w ∈ glyph_stores clock x y ch ->
  exists r col, 0 <= r < 8 /\ 0 <= col < 8 /\
    cursor clock x y r col <= w.1
      < cursor clock x y r col + bytes_per_pixel clock.
Proof.
  unfold glyph_stores. rewrite list_elem_of_bind.
  intros (r & Hw & Hr). apply list_elem_of_bind in Hw as (col & Hw & Hcol).
  apply elem_of_seqZ in Hr, Hcol. apply elem_of_memset in Hw as [Hw _].
  exists r, col. unfold FONT_HEIGHT, FONT_WIDTH in *. repeat split; lia.
Qed.

Lemma bytes_per_pixel_nonneg clock :
  wf_geometry clock -> 0 <= bytes_per_pixel clock.
Proof.
  intros (_ & _ & _ & _ & Hb). unfold bytes_per_pixel, is_u32 in *.
  apply Z.div_pos; lia.
Qed.

Lemma row_gap_exact clock :
  wf_geometry clock ->
  FONT_WIDTH * bytes_per_pixel clock <= line_length (finfo clock) ->
  row_gap clock
  = line_length (finfo clock) - FONT_WIDTH * bytes_per_pixel clock.
Proof.
  intros Hwf Hfit. pose proof (bytes_per_pixel_nonneg clock Hwf).
  destruct Hwf as (_ & Hl & _). unfold is_u32, FONT_WIDTH in *.
  unfold row_gap. apply wrap32_small. unfold FONT_WIDTH. lia.
Qed.

Lemma pitch_exact clock :
  wf_geometry clock ->
  FONT_WIDTH * bytes_per_pixel clock <= line_length (finfo clock) ->
  pitch clock = line_length (finfo clock).
Proof. intros. unfold pitch. rewrite row_gap_exact by done. ring. Qed.

(** One call of [draw_char] stays in the surface when the cell does. *)
Lemma glyph_stores_in_surface clock x y ch :
  wf_geometry clock ->
  0 <= x ->
  FONT_WIDTH * bytes_per_pixel clock <= line_length (finfo clock) ->
  wrap32 (y * line_length (finfo clock)) + 7 * line_length (finfo clock)
    + (x + FONT_WIDTH) * bytes_per_pixel clock <= smem_len (finfo clock) ->
  Forall (in_surface clock) (glyph_stores clock x y ch).
Proof.
  intros Hwf Hx Hw Hfit. apply Forall_forall. intros w Hin.
  apply elem_of_glyph_stores in Hin as (r & col & Hr & Hc & Ha).
  pose proof (bytes_per_pixel_nonneg clock Hwf) as Hb.
  pose proof (wrap32_range (y * line_length (finfo clock))) as Hy.
  unfold cursor, char_origin in Ha. rewrite pitch_exact in Ha by done.
  destruct Hwf as (_ & Hl & _). unfold in_surface, is_u32, FONT_WIDTH in *.
  split; nia.
Qed.

Lemma clock_row_offset clock :
  wf_geometry clock ->
  FONT_HEIGHT + 2 <= yres (vinfo clock) ->
  yres (vinfo clock) * line_length (finfo clock) <= smem_len (finfo clock) ->
  wrap32 (clock_y clock * line_length (finfo clock)) =
  (yres (vinfo clock) - FONT_HEIGHT - 2) * line_length (finfo clock).
Proof.
  intros (Hs & Hl & _) Hy Hfit. unfold clock_y.
  rewrite wrap32_to_int32_mul. apply wrap32_small.
  unfold is_u32, FONT_HEIGHT in *. nia.
Qed.

Lemma draw_text_in_surface clock x y text n :
  wf_geometry clock ->
  0 <= x ->
  (x + FONT_WIDTH * Z.of_nat n) * bytes_per_pixel clock
    <= line_length (finfo clock) ->
  wrap32 (y * line_length (finfo clock))
    + FONT_HEIGHT * line_length (finfo clock) <= smem_len (finfo clock) ->
  exists ws, draw_text clock x y text n = Some ws /\
             Forall (in_surface clock) ws.
Proof.
  intros Hwf Hx. pose proof (bytes_per_pixel_nonneg clock Hwf) as Hb.
  induction n as [|n IH]; intros Hrow Hfit.
  - exists []. by split.
  - cbn [draw_text]. rewrite draw_char_closed.
    destruct IH as (ws & -> & Hws); [unfold FONT_WIDTH in *; nia | done |].
    eexists. split; [done|]. apply Forall_app. split; [|done].
    unfold FONT_WIDTH, FONT_HEIGHT in *.
    apply glyph_stores_in_surface; unfold FONT_WIDTH; try done; nia.
Qed.

End Rasterizer.

(** The first row of the letter A, [0x0C], at one byte per pixel: the
    pixels of bits 2 and 3 are white. *)
Example draw_char_A_first_row :
  (fun r => take 8 r.2) <$> draw_char (H := font_A_only) fb_8x16 0 0 65
  = Some [(0, 0); (1, 0); (2, 255); (3, 255); (4, 0); (5, 0); (6, 0); (7, 0)].
Proof. reflexivity. Qed.

Lemma whole_bytes clock :
  In (bits_per_pixel (vinfo clock)) [8; 16; 24; 32] ->
  8 * bytes_per_pixel clock = bits_per_pixel (vinfo clock).
Proof.
  unfold bytes_per_pixel.
  intros [E|[E|[E|[E|[]]]]]; rewrite <- E; reflexivity.
Qed.

(** Claim C2.  On a surface of 8, 16, 24 or 32 bits per pixel whose rows
    hold at least one glyph, [draw_char] returns, for every coordinate and
    every character code, after the stores of 8 rows of 8 pixels: for the
    bit [col] of row [r] of the glyph (bit 0 is the leftmost pixel) it
    stores [bytes_per_pixel] consecutive bytes at the cursor, all [0xFF] when
    the bit is set and all [0x00] otherwise.  The cursor starts at the
    origin of the character, advances by [bytes_per_pixel] per column and
    by [line_length - 8 * bytes_per_pixel] at the end of each row. *)
Theorem draw_char_writes_glyph `{GlyphTable} clock x y ch :
  wf_geometry clock ->
  In (bits_per_pixel (vinfo clock)) [8; 16; 24; 32] ->
  FONT_WIDTH * bytes_per_pixel clock <= line_length (finfo clock) ->
  let bpp := bytes_per_pixel clock in
  let stores :=
    r ← seqZ 0 8;
    col ← seqZ 0 8;
    memset (cursor clock x y r col)
           (if Z.testbit (font8x8_basic ch r) col then 255 else 0) bpp in
  8 * bpp = bits_per_pixel (vinfo clock) /\
  draw_char clock x y ch = Some (cursor clock x y 8 0, stores) /\
  Z.of_nat (length stores) = 64 * bpp /\
  cursor clock x y 0 0 = char_origin clock x y /\
  (forall r col, cursor clock x y r (col + 1) = cursor clock x y r col + bpp) /\
  (forall r, cursor clock x y (r + 1) 0 =
             cursor clock x y r 8 + (line_length (finfo clock) - 8 * bpp)).
Proof.
  intros Hwf Hbits Hwide bpp stores.
  split; [by apply whole_bytes|].
  split; [apply draw_char_closed|].
  split; [apply length_glyph_stores; by apply bytes_per_pixel_nonneg|].
  unfold cursor. rewrite pitch_exact by done. subst bpp.
  repeat split; intros; ring.
Qed.

Lemma draw_char_writes_glyph_witness :
  wf_geometry fb_vga /\
  In (bits_per_pixel (vinfo fb_vga)) [8; 16; 24; 32] /\
  FONT_WIDTH * bytes_per_pixel fb_vga <= line_length (finfo fb_vga) /\
  8 * bytes_per_pixel fb_vga = 32 /\
  draw_char (H := font_A_only) fb_vga 5 470 65 =
    Some (cursor fb_vga 5 470 8 0,
          r ← seqZ 0 8;
          col ← seqZ 0 8;
          memset (cursor fb_vga 5 470 r col)
                 (if Z.testbit (font_A_only 65 r) col then 255 else 0)
                 (bytes_per_pixel fb_vga)).
Proof.
  assert (Hwf : wf_geometry fb_vga) by (repeat split; vm_compute; congruence).
  assert (Hbits : In (bits_per_pixel (vinfo fb_vga)) [8; 16; 24; 32])
    by (simpl; tauto).
  assert (Hwide : FONT_WIDTH * bytes_per_pixel fb_vga
                  <= line_length (finfo fb_vga))
    by (vm_compute; congruence).
  split; [exact Hwf|]. split; [exact Hbits|]. split; [exact Hwide|].
  pose proof (draw_char_writes_glyph (H := font_A_only) fb_vga 5 470 65
                Hwf Hbits Hwide) as (Hb & Hd & _).
  split; [exact Hb | exact Hd].
Defined.

(** ** The eraser *)

Lemma clear_time_twice clock y mem :
  replay (clear_time clock y) mem ≫= replay (clear_time clock y) =
  replay (clear_time clock y) mem.
Proof.
  destruct (replay (clear_time clock y) mem) as [mem'|] eqn:Hr; [|done].
  simpl. eapply replay_const_twice; [|done]. apply memset_const.
Qed.

(** Whenever the stores of [clear_time] all fall in the mapping, the bytes
    of the range that the code computes are zero afterwards and every
    other byte is unchanged. *)
Lemma clear_time_lookup clock y (mem mem' : list Z) (a : nat) :
  replay (clear_time clock y) mem = Some mem' ->
  mem' !! a =
  if decide (strip_start clock y <= Z.of_nat a
             < strip_start clock y + strip_bytes clock)
  then Some 0 else mem !! a.
Proof.
  intros Hr. unfold clear_time in Hr.
  rewrite (replay_const_lookup 0 _ _ _ a (memset_const _ _ _) Hr).
  destruct (decide (Z.of_nat a ∈ (memset (strip_start clock y) 0
                                    (strip_bytes clock)).*1)) as [Hi|Hi];
    rewrite elem_of_memset_addr in Hi; case_decide; done.
Qed.

(** A strip that lies in the surface is addressed without wrap-around. *)
Lemma strip_in_surface clock y :
  wf_geometry clock -> 0 <= y ->
  (y + FONT_HEIGHT) * line_length (finfo clock) <= smem_len (finfo clock) ->
  strip_start clock y = y * line_length (finfo clock) /\
  strip_bytes clock = FONT_HEIGHT * line_length (finfo clock).
Proof.
  intros (Hs & Hl & _) Hy Hfit.
  unfold strip_start, strip_bytes, FONT_HEIGHT, is_u32 in *.
  split; apply wrap32_small; nia.
Qed.

Lemma clear_time_effect clock y (mem : list Z) :
  wf_geometry clock ->
  Z.of_nat (length mem) = smem_len (finfo clock) ->
  0 <= y ->
  (y + FONT_HEIGHT) * line_length (finfo clock) <= smem_len (finfo clock) ->
  exists mem',
    replay (clear_time clock y) mem = Some mem' /\
    length mem' = length mem /\
    forall a : nat,
      mem' !! a =
      if decide (y * line_length (finfo clock) <= Z.of_nat a
                 < y * line_length (finfo clock)
                   + FONT_HEIGHT * line_length (finfo clock))
      then Some 0 else mem !! a.
Proof.
  intros Hwf Hlen Hy Hfit.
  destruct (strip_in_surface clock y Hwf Hy Hfit) as [Hs Hb].
  unfold clear_time. rewrite Hs, Hb.
  apply replay_memset.
  - destruct Hwf as (_ & Hl & _). unfold is_u32 in Hl. nia.
  - rewrite Hlen. lia.
Qed.

(** Claim C7.  For every surface and every row [y] whose strip lies in the
    mapping, [clear_time] stores zero at the
    [FONT_HEIGHT * line_length] consecutive bytes that start at offset
    [y * line_length]; after the call these bytes are zero and every other
    byte of the surface is what it was. *)
Theorem clear_time_zeroes_strip clock y (mem : list Z) :
  wf_geometry clock ->
  Z.of_nat (length mem) = smem_len (finfo clock) ->
  0 <= y ->
  (y + FONT_HEIGHT) * line_length (finfo clock) <= smem_len (finfo clock) ->
  let first := y * line_length (finfo clock) in
  let count := FONT_HEIGHT * line_length (finfo clock) in
  clear_time clock y = memset first 0 count /\
  exists mem',
    replay (clear_time clock y) mem = Some mem' /\
    length mem' = length mem /\
    forall a : nat,
      mem' !! a =
      if decide (first <= Z.of_nat a < first + count) then Some 0
      else mem !! a.
Proof.
  intros Hwf Hlen Hy Hfit first count. split.
  - destruct (strip_in_surface clock y Hwf Hy Hfit) as [Hs Hb].
    unfold clear_time. by rewrite Hs, Hb.
  - by apply clear_time_effect.
Qed.

Lemma clear_time_zeroes_strip_witness :
  wf_geometry fb_8x16 /\
  Z.of_nat (length (replicate 128 7)) = smem_len (finfo fb_8x16) /\
  0 <= 6 /\
  (6 + FONT_HEIGHT) * line_length (finfo fb_8x16) <= smem_len (finfo fb_8x16) /\
  clear_time fb_8x16 6 = memset 48 0 64 /\
  exists mem',
    replay (clear_time fb_8x16 6) (replicate 128 7) = Some mem' /\
    length mem' = length (replicate 128 7 : list Z) /\
    forall a : nat,
      mem' !! a =
      if decide (48 <= Z.of_nat a < 48 + 64) then Some 0
      else replicate 128 7 !! a.
Proof.
  assert (Hwf : wf_geometry fb_8x16) by (repeat split; vm_compute; congruence).
  assert (Hlen : Z.of_nat (length (replicate 128 7))
                 = smem_len (finfo fb_8x16)) by reflexivity.
  assert (Hy : 0 <= 6) by lia.
  assert (Hfit : (6 + FONT_HEIGHT) * line_length (finfo fb_8x16)
                 <= smem_len (finfo fb_8x16)) by (vm_compute; congruence).
  split; [exact Hwf|]. split; [exact Hlen|]. split; [exact Hy|].
  split; [exact Hfit|].
  exact (clear_time_zeroes_strip fb_8x16 6 (replicate 128 7) Hwf Hlen Hy Hfit).
Defined.

(** Claim C9.  For every surface and every row [y] whose strip lies in the
    mapping, a second [clear_time] on the same strip leaves the surface as
    the first one left it, and the strip is all zero. *)
Theorem clear_time_idempotent clock y (mem : list Z) :
  wf_geometry clock ->
  Z.of_nat (length mem) = smem_len (finfo clock) ->
  0 <= y ->
  (y + FONT_HEIGHT) * line_length (finfo clock) <= smem_len (finfo clock) ->
  exists mem',
    replay (clear_time clock y) mem = Some mem' /\
    replay (clear_time clock y) mem' = Some mem' /\
    replay (clear_time clock y ++ clear_time clock y) mem = Some mem' /\
    forall a : nat,
      y * line_length (finfo clock) <= Z.of_nat a
        < (y + FONT_HEIGHT) * line_length (finfo clock) ->
      mem' !! a = Some 0.
Proof.
  intros Hwf Hlen Hy Hfit.
  destruct (clear_time_effect clock y mem Hwf Hlen Hy Hfit)
    as (mem' & Hr & _ & Hl).
  pose proof (clear_time_twice clock y mem) as Htwice.
  rewrite Hr in Htwice. simpl in Htwice.
  exists mem'. split; [done|]. split; [done|].
  split; [by rewrite replay_app, Hr|].
  intros a Ha. rewrite Hl. rewrite decide_True; [done | lia].
Qed.

Lemma clear_time_idempotent_witness :
  wf_geometry fb_8x16 /\
  Z.of_nat (length (replicate 128 7)) = smem_len (finfo fb_8x16) /\
  0 <= 6 /\
  (6 + FONT_HEIGHT) * line_length (finfo fb_8x16) <= smem_len (finfo fb_8x16) /\
  exists mem',
    replay (clear_time fb_8x16 6) (replicate 128 7) = Some mem' /\
    replay (clear_time fb_8x16 6) mem' = Some mem' /\
    replay (clear_time fb_8x16 6 ++ clear_time fb_8x16 6) (replicate 128 7)
      = Some mem' /\
    forall a : nat, 48 <= Z.of_nat a < 112 -> mem' !! a = Some 0.
Proof.
  assert (Hwf : wf_geometry fb_8x16) by (repeat split; vm_compute; congruence).
  assert (Hlen : Z.of_nat (length (replicate 128 7))
                 = smem_len (finfo fb_8x16)) by reflexivity.
  assert (Hy : 0 <= 6) by lia.
  assert (Hfit : (6 + FONT_HEIGHT) * line_length (finfo fb_8x16)
                 <= smem_len (finfo fb_8x16)) by (vm_compute; congruence).
  split; [exact Hwf|]. split; [exact Hlen|]. split; [exact Hy|].
  split; [exact Hfit|].
  exact (clear_time_idempotent fb_8x16 6 (replicate 128 7) Hwf Hlen Hy Hfit).
Defined.

(** ** The text composer *)

Lemma length_append (s1 s2 : string) :
  String.length (s1 ++ s2) = (String.length s1 + String.length s2)%nat.
Proof. induction s1 as [|a s1 IH]; simpl; [done | by rewrite IH]. Qed.

Lemma length_print_digits fuel n acc :
  (String.length (print_digits fuel n acc) <= fuel + String.length acc)%nat.
Proof.
  revert n acc. induction fuel as [|fuel IH]; intros n acc; simpl; [lia|].
  destruct (n <? 10); simpl; [lia|].
  etrans; [apply IH|]. simpl. lia.
Qed.

Lemma length_print_d n : (String.length (print_d n) <= 11)%nat.
Proof.
  unfold print_d. destruct (n <? 0); simpl.
  - pose proof (length_print_digits 10 (- n) EmptyString). simpl in *. lia.
  - pose proof (length_print_digits 10 n EmptyString). simpl in *. lia.
Qed.

Lemma length_sprintf_level n : (String.length (sprintf_level n) <= 14)%nat.
Proof.
  unfold sprintf_level. rewrite !length_append.
  pose proof (length_print_d n). simpl. lia.
Qed.

Lemma get_asctime_cases w :
  get_asctime w =
  match time_string w with
  | Some s => s
  | None => time_placeholder
  end.
Proof.
  unfold get_asctime, time_string. destruct (time w) as [now|]; [|done].
  by destruct (localtime w now).
Qed.

Lemma length_add_power_level w path text :
  (String.length (add_power_level_to_text w path text)
   <= String.length text + 14)%nat.
Proof.
  unfold add_power_level_to_text. destruct (fopen w path); [|lia].
  rewrite length_append.
  match goal with
  | |- context [sprintf_level ?n] => pose proof (length_sprintf_level n)
  end.
  lia.
Qed.

Lemma length_compose_text w clock :
  (String.length (compose_text w clock)
   <= String.length (get_asctime w) + 14)%nat.
Proof.
  unfold compose_text. destruct (capacity clock); [|lia].
  apply length_add_power_level.
Qed.

(** The composer on a working clock: the bare time text without a capacity
    source, the suffix after the newline of [asctime] with one. *)
Example compose_text_jan1 :
  compose_text world_jan1 fb_vga = jan1_2020.
Proof. reflexivity. Qed.

Example compose_text_battery_87 :
  compose_text world_battery_87 fb_vga_battery
  = (jan1_2020 ++ "- 87%")%string.
Proof. reflexivity. Qed.

Example print_d_int_min : print_d (- 2 ^ 31) = "-2147483648"%string.
Proof. reflexivity. Qed.

Example atoi_capacity_100 : atoi (fgets_line 3 "100") = 100.
Proof. reflexivity. Qed.

Lemma length_get_asctime w :
  (forall s, time_string w = Some s -> (String.length s <= 113)%nat) ->
  (String.length (get_asctime w) <= 113)%nat.
Proof.
  intros Hlibc. rewrite get_asctime_cases.
  destruct (time_string w) as [s|]; [by apply Hlibc|]. simpl. lia.
Qed.

Lemma add_power_level_unopened w path text :
  fopen w path = None -> add_power_level_to_text w path text = text.
Proof. intros Hf. unfold add_power_level_to_text. by rewrite Hf. Qed.

(** A capacity file that cannot be opened leaves the bare time text. *)
Lemma compose_text_unopened w clock path :
  capacity clock = Some path -> fopen w path = None ->
  compose_text w clock = get_asctime w.
Proof.
  intros Hc Hf. unfold compose_text. rewrite Hc.
  by apply add_power_level_unopened.
Qed.

(** The three ways in which the time of a tick is not resolved. *)
Lemma time_failure_cases w :
  time w = None \/
  (exists now, time w = Some now /\ localtime w now = None) \/
  (exists now local, time w = Some now /\ localtime w now = Some local /\
                     asctime w local = None) ->
  get_asctime w = time_placeholder.
Proof.
  unfold get_asctime.
  intros [->|[(now & -> & ->)|(now & local & -> & -> & ->)]]; done.
Qed.

(** Claim C6, as the code has it.  On every tick on which the time is not
    resolved, [get_asctime] yields exactly the placeholder, which fits in
    [text], and the loop goes on to its next statement.  The composed text
    of the tick is the placeholder when no capacity source is configured or
    it cannot be opened; otherwise it is the placeholder followed by what
    [add_power_level_to_text] appends. *)
Theorem time_failure_placeholder `{GlyphTable} w clock :
  time w = None \/
  (exists now, time w = Some now /\ localtime w now = None) \/
  (exists now local, time w = Some now /\ localtime w now = Some local /\
                     asctime w local = None) ->
  get_asctime w = "Error getting time!"%string /\
  text_extent (get_asctime w) <= MAX_TEXT_LEN /\
  compose_text w clock =
    match capacity clock with
    | Some path => add_power_level_to_text w path "Error getting time!"
    | None => "Error getting time!"%string
    end /\
  (capacity clock = None \/
   (exists path, capacity clock = Some path /\ fopen w path = None) ->
   compose_text w clock = "Error getting time!"%string) /\
  (forall W s, pc s = L_get_asctime -> W (m_tick s) = w ->
     pc (step W clock s) = L_add_power /\
     m_text (step W clock s) = "Error getting time!"%string).
Proof.
  intros Hfail. pose proof (time_failure_cases w Hfail) as Hg.
  unfold time_placeholder in Hg.
  split; [done|]. split; [by rewrite Hg|].
  split; [unfold compose_text; by rewrite Hg|]. split.
  - intros [Hc|(path & Hc & Hf)].
    + unfold compose_text. by rewrite Hc.
    + by rewrite (compose_text_unopened w clock path).
  - intros W [l g x dx t n ev]. simpl. intros -> <-. unfold step. simpl.
    by rewrite Hg.
Qed.

Lemma time_failure_placeholder_witness :
  (time world_no_time = None \/
   (exists now, time world_no_time = Some now /\
                localtime world_no_time now = None) \/
   (exists now local, time world_no_time = Some now /\
                      localtime world_no_time now = Some local /\
                      asctime world_no_time local = None)) /\
  get_asctime world_no_time = "Error getting time!"%string /\
  compose_text world_no_time fb_vga = "Error getting time!"%string.
Proof.
  assert (Hfail :
    time world_no_time = None \/
    (exists now, time world_no_time = Some now /\
                 localtime world_no_time now = None) \/
    (exists now local, time world_no_time = Some now /\
                       localtime world_no_time now = Some local /\
                       asctime world_no_time local = None))
    by (left; reflexivity).
  split; [exact Hfail|].
  pose proof (time_failure_placeholder (H := font_A_only) world_no_time fb_vga
                Hfail) as (Hg & _ & _ & Hc & _).
  split; [exact Hg|]. apply Hc. left. reflexivity.
Defined.

(** Claim C6 as stated fails when a capacity source is configured and
    readable: the suffix follows the placeholder. *)
Lemma placeholder_gets_suffix :
  time world_no_time = None /\
  capacity fb_vga_battery = Some battery_path /\
  compose_text world_no_time fb_vga_battery
    = "Error getting time!- 87%"%string /\
  compose_text world_no_time fb_vga_battery <> "Error getting time!"%string.
Proof. repeat split. vm_compute. discriminate. Qed.

(** Claim C4, on a capacity file that opens and is empty.  [fgets] returns
    [NULL], its result is not tested, and the suffix is appended all the
    same, with the number that [atoi] finds in the array as it was: the
    composed text is not the bare time text. *)
Theorem unread_capacity_line_still_appended :
  capacity fb_vga_battery = Some battery_path /\
  fopen world_empty_capacity battery_path = Some (capacity_file EmptyString) /\
  fgets 4 (capacity_file EmptyString) = None /\
  get_asctime world_empty_capacity = jan1_2020 /\
  compose_text world_empty_capacity fb_vga_battery
    = (jan1_2020 ++ "- 0%")%string /\
  compose_text world_empty_capacity fb_vga_battery
    <> get_asctime world_empty_capacity.
Proof. repeat split. vm_compute. discriminate. Qed.

(** ** The drift of the text *)

Lemma tick_update_inv p : drift_inv p -> drift_inv (tick_update p).
Proof.
  destruct p as [x dx]. unfold drift_inv, tick_update, bounce. simpl.
  intros [[-> Hx]|[-> Hx]].
  - destruct (Z.gtb_spec (x + 1) 20), (Z.ltb_spec (x + 1) 6); simpl; lia.
  - destruct (Z.gtb_spec (x + -1) 20), (Z.ltb_spec (x + -1) 6); simpl; lia.
Qed.

Lemma drift_S n : drift (S n) = tick_update (drift n).
Proof. reflexivity. Qed.

Lemma drift_invariant n : drift_inv (drift n).
Proof.
  induction n as [|n IH]; [left; simpl; lia|].
  rewrite drift_S. by apply tick_update_inv.
Qed.

Lemma bounce_flips x dx :
  dx <> 0 ->
  (bounce x dx = - dx <-> (x > 20 \/ x < 6)) /\
  (bounce x dx = dx <-> ~ (x > 20 \/ x < 6)).
Proof.
  intros Hdx. unfold bounce.
  destruct (Z.gtb_spec x 20), (Z.ltb_spec x 6); simpl; lia.
Qed.

(** ** The render loop *)

Section Loop.
Context `{GlyphTable}.
Variable W : nat -> world.
Variable clock : FBClock.


Lemma draw_text_total x y text n :
  exists ws, draw_text clock x y text n = Some ws.
Proof.
  induction n as [|n [ws IH]]; [by eexists|].
  cbn [draw_text]. rewrite draw_char_closed, IH. by eexists.
Qed.

Lemma exec_app acts1 acts2 s :
  exec W clock (acts1 ++ acts2) s = exec W clock acts2 (exec W clock acts1 s).
Proof. unfold exec. apply fold_left_app. Qed.

Lemma exec_cons a acts s :
  exec W clock (a :: acts) s = exec W clock acts (perform W clock s a).
Proof. reflexivity. Qed.

(** Invariants of [run_clock] are proved statement by statement. *)
Lemma exec_invariant (P : machine -> Prop) acts s :
  (forall s, P s -> P (step W clock s)) ->
  (forall s, P s -> P (handle_signal s)) ->
  P s -> P (exec W clock acts s).
Proof.
  intros Hstep Hsig. revert s.
  induction acts as [|[] acts IH]; intros s Hs; [done|..];
    rewrite exec_cons; apply IH; simpl; auto.
Qed.

Lemma step_pc_in_tick s :
  in_tick (pc s) = true -> pc (step W clock s) = next_in_tick (pc s).
Proof.
  destruct s as [l g x dx t n ev]. unfold step. simpl.
  destruct l; try done; simpl.
  destruct (draw_text_total x (clock_y clock) t (String.length t)) as [ws ->].
  done.
Qed.

Lemma step_to_munmap s :
  pc (step W clock s) = L_munmap -> pc s = L_while /\ g_running s = 0.
Proof.
  destruct s as [l g x dx t n ev]. unfold step. simpl.
  destruct l; simpl; try done.
  - destruct (Z.eqb_spec g 0); simpl; [done | discriminate].
  - destruct (draw_text_total x (clock_y clock) t (String.length t))
      as [ws ->].
    discriminate.
Qed.

Lemma step_g_running s : g_running (step W clock s) = g_running s.
Proof.
  destruct s as [l g x dx t n ev]. unfold step. simpl.
  destruct l; simpl; try done.
  - by destruct (g =? 0).
  - by destruct (capacity clock).
  - by destruct (draw_text_total x (clock_y clock) t (String.length t))
      as [ws ->].
Qed.

Lemma filter_release_stores (ws : list store) :
  List.filter is_release (EvStore <$> ws) = [].
Proof. induction ws as [|w ws IH]; simpl; done. Qed.

Lemma releases_invariant acts :
  let s := exec W clock acts run_clock_init in
  releases s = expected_releases clock (pc s).
Proof.
  apply exec_invariant; [| |done].
  - intros [l g x dx t n ev]. unfold releases, step. simpl. intros Hr.
    destruct l; simpl in *;
      try destruct (g =? 0); try destruct (capacity clock);
      try destruct (draw_text_total x (clock_y clock) t (String.length t))
        as [ws ->];
      simpl; rewrite ?List.filter_app, ?Hr, ?filter_release_stores; done.
  - by intros [l g x dx t n ev].
Qed.

Lemma sigint_lowers_flag acts s :
  In Sigint acts \/ g_running s = 0 -> g_running (exec W clock acts s) = 0.
Proof.
  revert s. induction acts as [|a acts IH]; intros s [Hin|Hg]; try done.
  - destruct Hin as [->|Hin]; rewrite exec_cons; apply IH; [by right | by left].
  - rewrite exec_cons. apply IH. right. destruct a; simpl; [|done].
    by rewrite step_g_running.
Qed.

Lemma step_distance s :
  g_running s = 0 ->
  distance (pc (step W clock s)) = Nat.pred (distance (pc s)).
Proof.
  destruct s as [l g x dx t n ev]. simpl. intros ->. unfold step. simpl.
  destruct l; simpl; try done.
  destruct (draw_text_total x (clock_y clock) t (String.length t)) as [ws ->].
  done.
Qed.

Lemma exec_distance acts s :
  g_running s = 0 ->
  (distance (pc (exec W clock acts s)) = distance (pc s) - runs acts)%nat.
Proof.
  revert s. induction acts as [|a acts IH]; intros s Hg.
  - simpl. unfold runs. simpl. lia.
  - rewrite exec_cons. destruct a; simpl.
    + rewrite IH by (by rewrite step_g_running).
      rewrite step_distance by done. unfold runs. simpl. lia.
    + rewrite IH by done. unfold runs. simpl. by destruct s.
Qed.

Lemma distance_0 l : distance l = 0%nat -> l = L_return.
Proof. by destruct l. Qed.

Lemma run_one_tick s :
  pc s = L_while -> g_running s <> 0 ->
  exists ws,
    tick_stores clock (m_x s) (compose_text (W (m_tick s)) clock) = Some ws /\
    exec W clock (repeat Run 8) s =
    Machine L_while (g_running s) (tick_update (m_x s, m_dx s)).1
            (tick_update (m_x s, m_dx s)).2
            (compose_text (W (m_tick s)) clock) (S (m_tick s))
            (m_events s ++ (EvStore <$> ws) ++ [EvSleep 1]).
Proof.
  destruct s as [l g x dx t n ev]. simpl. intros -> Hg.
  unfold tick_stores.
  destruct (draw_text_total x (clock_y clock) (compose_text (W n) clock)
              (String.length (compose_text (W n) clock))) as [ws Hws].
  rewrite Hws. eexists. split; [done|].
  unfold exec. cbn [repeat fold_left perform].
  (* the test of the loop, then the two statements of the composer *)
  unfold step at 8. cbn [pc g_running].
  destruct (Z.eqb_spec g 0) as [|_]; [done|].
  unfold compose_text in *.
  unfold step at 7; simpl. unfold step at 6; simpl.
  destruct (capacity clock) as [path|]; simpl.
  (* [clear_time] and the characters, then the three last statements *)
  all: unfold step at 5; simpl; unfold step at 4; simpl; rewrite Hws; simpl.
  all: unfold step; simpl.
  all: by rewrite fmap_app, <- !app_assoc.
Qed.

Lemma run_ticks k :
  let s := exec W clock (repeat Run (8 * k)) run_clock_init in
  pc s = L_while /\ g_running s = 1 /\ m_tick s = k /\
  (m_x s, m_dx s) = drift k.
Proof.
  induction k as [|k IH]; [done|].
  replace (8 * S k)%nat with (8 * k + 8)%nat by lia.
  rewrite repeat_app, exec_app.
  destruct IH as (Hpc & Hg & Ht & Hd).
  destruct (run_one_tick _ Hpc) as (ws & _ & ->); [lia|].
  cbn [pc g_running m_tick m_x m_dx]. rewrite drift_S, <- Hd, Ht.
  by destruct (tick_update _).
Qed.

Lemma bounce_inv x dx : advanced_inv (x, dx) -> drift_inv (x, bounce x dx).
Proof.
  unfold advanced_inv, drift_inv, bounce. simpl. intros [[-> Hx]|[-> Hx]];
    destruct (Z.gtb_spec x 20), (Z.ltb_spec x 6); simpl; lia.
Qed.

Lemma advance_inv x dx : drift_inv (x, dx) -> advanced_inv (x + dx, dx).
Proof. unfold advanced_inv, drift_inv. simpl. lia. Qed.

Lemma position_invariant acts :
  position_inv (exec W clock acts run_clock_init).
Proof.
  apply exec_invariant.
  - intros [l g x dx t n ev]. unfold position_inv, step. simpl.
    destruct l; simpl;
      try destruct (g =? 0); try destruct (capacity clock);
      try destruct (draw_text_total x (clock_y clock) t (String.length t))
        as [ws ->];
      simpl; auto using bounce_inv, advance_inv.
  - by intros [l g x dx t n ev].
  - left. simpl. lia.
Qed.



Lemma clear_time_in_surface :
  wf_geometry clock ->
  FONT_HEIGHT + 2 <= yres (vinfo clock) ->
  yres (vinfo clock) * line_length (finfo clock) <= smem_len (finfo clock) ->
  Forall (in_surface clock) (clear_time clock (clock_y clock)).
Proof.
  intros Hwf Hy Hfit. apply Forall_forall. intros w Hw.
  apply elem_of_memset in Hw as [Hw _]. unfold strip_start, strip_bytes in Hw.
  rewrite clock_row_offset in Hw by done.
  destruct Hwf as (Hs & Hl & _). unfold is_u32, FONT_HEIGHT in *.
  rewrite (wrap32_small (8 * _)) in Hw by nia.
  unfold in_surface. nia.
Qed.

(** The stores of one tick. *)
Lemma tick_stores_in_surface x text :
  wf_geometry clock ->
  FONT_HEIGHT + 2 <= yres (vinfo clock) ->
  yres (vinfo clock) * line_length (finfo clock) <= smem_len (finfo clock) ->
  0 <= x ->
  (x + FONT_WIDTH * Z.of_nat (String.length text)) * bytes_per_pixel clock
    <= line_length (finfo clock) ->
  exists ws, tick_stores clock x text = Some ws /\ Forall (in_surface clock) ws.
Proof.
  intros Hwf Hy Hfit Hx Hrow. unfold tick_stores.
  destruct (draw_text_in_surface clock x (clock_y clock) text
              (String.length text)) as (ws & -> & Hws); try done.
  { rewrite clock_row_offset by done.
    destruct Hwf as (_ & Hl & _). unfold is_u32, FONT_HEIGHT in *. nia. }
  eexists. split; [done|]. apply Forall_app. split; [|done].
  by apply clear_time_in_surface.
Qed.





Lemma text_length_invariant acts :
  (forall n s, time_string (W n) = Some s -> (String.length s <= 113)%nat) ->
  let s := exec W clock acts run_clock_init in
  (String.length (m_text s) <= 127)%nat /\
  (pc s = L_add_power -> (String.length (m_text s) <= 113)%nat).
Proof.
  intros Hlibc. apply exec_invariant.
  - intros [l g x dx t n ev]. unfold step. simpl. intros [Ht Ha].
    pose proof (length_get_asctime (W n) (Hlibc n)).
    destruct l; simpl;
      repeat match goal with
      | |- context [g =? 0] => destruct (g =? 0)
      | |- context [capacity clock] =>
        destruct (capacity clock) as [path|];
        [pose proof (length_add_power_level (W n) path t)|]
      | |- context [draw_text clock x ?y t ?k] =>
        destruct (draw_text_total x y t k) as [ws ->]
      end;
      simpl;
      (split;
       [first [lia | specialize (Ha eq_refl); lia]
       |intros Hpc; try discriminate Hpc; lia]).
  - by intros [l g x dx t n ev].
  - simpl. split; [lia | done].
Qed.

(** Claim C8.  When the time string that the C library returns has at most
    113 characters on every tick (the standard [asctime] writes 25), the
    text of [get_asctime] and the composed text with its capacity suffix
    fit, terminator included, in the [MAX_TEXT_LEN] bytes of [text], on
    every tick and at every program point of every run: no store of the
    composition goes past the array. *)
Theorem text_fits_buffer :
  (forall n s, time_string (W n) = Some s -> (String.length s <= 113)%nat) ->
  (forall n,
     (String.length (compose_text (W n) clock) <= 127)%nat /\
     text_extent (get_asctime (W n)) <= MAX_TEXT_LEN /\
     text_extent (compose_text (W n) clock) <= MAX_TEXT_LEN) /\
  (forall acts,
     text_extent (m_text (exec W clock acts run_clock_init)) <= MAX_TEXT_LEN).
Proof.
  intros Hlibc. split.
  - intros n. pose proof (length_get_asctime (W n) (Hlibc n)).
    pose proof (length_compose_text (W n) clock).
    unfold text_extent, MAX_TEXT_LEN. lia.
  - intros acts. destruct (text_length_invariant acts Hlibc) as [Ht _].
    unfold text_extent, MAX_TEXT_LEN. lia.
Qed.

(** Claim C5.  [handle_signal] changes nothing but the flag.  Inside a
    tick every statement is followed by the next statement of the tick,
    whatever the flag; the flag is read by the test of the loop alone, and
    [munmap] is reached from that test only, with the flag down.  Along
    every run, with signals delivered anywhere, the releases performed are
    a prefix of [munmap], [close], complete once [run_clock] has returned.
    After a signal, ten more statements bring [run_clock] to its return,
    with one [munmap] followed by one [close]. *)
Theorem shutdown_is_cooperative :
  (forall s,
     g_running (handle_signal s) = 0 /\
     pc (handle_signal s) = pc s /\
     (m_x (handle_signal s), m_dx (handle_signal s)) = (m_x s, m_dx s) /\
     m_text (handle_signal s) = m_text s /\
     m_tick (handle_signal s) = m_tick s /\
     m_events (handle_signal s) = m_events s) /\
  (forall s, in_tick (pc s) = true ->
     pc (step W clock s) = next_in_tick (pc s)) /\
  (forall s, pc s = L_while ->
     pc (step W clock s)
     = if g_running s =? 0 then L_munmap else L_get_asctime) /\
  (forall s, pc (step W clock s) = L_munmap ->
     pc s = L_while /\ g_running s = 0) /\
  (forall acts,
     let s := exec W clock acts run_clock_init in
     releases s = expected_releases clock (pc s)) /\
  (forall acts more,
     In Sigint acts -> (10 <= runs more)%nat ->
     let s := exec W clock (acts ++ more) run_clock_init in
     pc s = L_return /\
     releases s = [EvMunmap (smem_len (finfo clock)); EvClose]).
Proof.
  split; [done|]. split; [apply step_pc_in_tick|].
  split.
  { intros [l g x dx t n ev]. simpl. intros ->. unfold step. simpl.
    by destruct (g =? 0). }
  split; [apply step_to_munmap|]. split; [apply releases_invariant|].
  intros acts more Hsig Hruns s.
  assert (pc s = L_return) as Hpc.
  { subst s. rewrite exec_app. apply distance_0.
    rewrite exec_distance by (apply sigint_lowers_flag; by left).
    destruct (pc (exec W clock acts run_clock_init)); simpl; lia. }
  split; [done|]. subst s. rewrite releases_invariant. by rewrite Hpc.
Qed.

(** Claim C10.  From [x = 5], [dx = 1], after every update of the
    position [x] lies in [[5, 21]] and [dx] is 1 or -1; [x] is 21 after 16
    updates and 5 after 32.  [drift k] is the state of [run_clock] after
    [k] ticks, and the bounds hold at every program point of every run. *)
Theorem drift_range :
  (forall n,
     5 <= (drift n).1 <= 21 /\ ((drift n).2 = 1 \/ (drift n).2 = -1)) /\
  (drift 16).1 = 21 /\
  (drift 32).1 = 5 /\
  (forall k,
     let s := exec W clock (repeat Run (8 * k)) run_clock_init in
     (m_x s, m_dx s) = drift k) /\
  (forall acts,
     let s := exec W clock acts run_clock_init in
     5 <= m_x s <= 21 /\ (m_dx s = 1 \/ m_dx s = -1)).
Proof.
  split.
  { intros n. pose proof (drift_invariant n) as Hn.
    unfold drift_inv in Hn. lia. }
  split; [reflexivity|]. split; [reflexivity|]. split.
  { intros k. apply run_ticks. }
  intros acts s. pose proof (position_invariant acts) as Hp.
  fold s in Hp. unfold position_inv, advanced_inv, drift_inv in Hp.
  destruct (pc s); simpl in Hp; lia.
Qed.

End Loop.

(** Claim C3, as the code has it.  Each update adds [dx] to [x]; the
    result lies in [[5, 21]], and [dx] changes sign exactly when, after
    the addition, [x > 20] or [x < 6]. *)
Theorem drift_bounce_band n :
  let p := drift n in
  let q := drift (S n) in
  q.1 = p.1 + p.2 /\
  5 <= q.1 <= 21 /\
  (q.2 = - p.2 <-> (q.1 > 20 \/ q.1 < 6)) /\
  (q.2 = p.2 <-> ~ (q.1 > 20 \/ q.1 < 6)).
Proof.
  intros p q. subst q. rewrite drift_S. fold p.
  pose proof (drift_invariant n) as Hp. fold p in Hp.
  pose proof (tick_update_inv p Hp) as Hq.
  unfold tick_update in *. simpl in *.
  split; [done|]. split; [unfold drift_inv in Hq; simpl in Hq; lia|].
  apply bounce_flips. unfold drift_inv in Hp. lia.
Qed.

(** Claim C3 as stated fails at the turning points: the sixteenth update
    gives [x = 21], outside [[6, 20]], and the thirty-second gives 5. *)
Lemma drift_leaves_6_20 :
  (drift 16).1 = 21 /\ ~ (6 <= (drift 16).1 <= 20) /\
  (drift 32).1 = 5 /\ ~ (6 <= (drift 32).1 <= 20).
Proof. vm_compute. repeat split; try congruence; intros [? ?]; congruence. Qed.



Lemma shutdown_is_cooperative_witness :
  In Sigint [Run; Run; Sigint] /\
  (10 <= runs (repeat Run 10))%nat /\
  pc (exec (H := font_A_only) (fun _ => world_jan1) fb_vga
        ([Run; Run; Sigint] ++ repeat Run 10) run_clock_init) = L_return /\
  releases (exec (H := font_A_only) (fun _ => world_jan1) fb_vga
              ([Run; Run; Sigint] ++ repeat Run 10) run_clock_init)
  = [EvMunmap 1228800; EvClose].
Proof.
  assert (Hsig : In Sigint [Run; Run; Sigint]) by (simpl; tauto).
  assert (Hruns : (10 <= runs (repeat Run 10))%nat) by (vm_compute; lia).
  split; [exact Hsig|]. split; [exact Hruns|].
  pose proof (shutdown_is_cooperative (H := font_A_only)
                (fun _ => world_jan1) fb_vga) as (_ & _ & _ & _ & _ & Hexit).
  exact (Hexit [Run; Run; Sigint] (repeat Run 10) Hsig Hruns).
Defined.

Lemma text_fits_buffer_witness :
  (forall (n : nat) s, time_string world_battery_87 = Some s ->
                       (String.length s <= 113)%nat) /\
  (String.length (compose_text world_battery_87 fb_vga_battery) <= 127)%nat /\
  text_extent (m_text (exec (H := font_A_only) (fun _ => world_battery_87)
                         fb_vga_battery (repeat Run 3) run_clock_init))
    <= MAX_TEXT_LEN.
Proof.
  assert (Hlibc : forall (n : nat) s, time_string world_battery_87 = Some s ->
                                      (String.length s <= 113)%nat).
  { intros _ s Hs. injection Hs as <-. vm_compute. lia. }
  split; [exact Hlibc|].
  pose proof (text_fits_buffer (H := font_A_only) (fun _ => world_battery_87)
                fb_vga_battery Hlibc) as [Htick Hrun].
  split; [exact (proj1 (Htick 0%nat)) | exact (Hrun (repeat Run 3))].
Defined.

(** * Start-up *)

(** ** [get_title] *)

Lemma strrchr_None s c : strrchr s c = None <-> has_char c s = false.
Proof.
  induction s as [|a s IH]; simpl; [done|].
  destruct (strrchr s c) as [r|].
  - split; [done|]. intros Hf. apply orb_false_elim in Hf as [_ Hf].
    apply IH in Hf. discriminate.
  - destruct (Ascii.eqb a c); simpl; [done|]. split; [|done].
    intros _. by apply IH.
Qed.

Lemma strrchr_Some s c r :
  strrchr s c = Some r ->
  exists pre r', s = (pre ++ r)%string /\ r = String c r' /\
                 has_char c r' = false.
Proof.
  revert r. induction s as [|a s IH]; intros r; simpl; [done|].
  destruct (strrchr s c) as [r0|] eqn:Hs.
  - intros [= <-]. destruct (IH r0 eq_refl) as (pre & r' & -> & -> & Hr').
    by exists (String a pre), r'.
  - destruct (Ascii.eqb_spec a c) as [->|]; [|done]. intros [= <-].
    exists EmptyString, s. split; [done|]. split; [done|].
    by apply strrchr_None.
Qed.

Lemma strrchr_app_last dir c name :
  has_char c name = false ->
  strrchr (dir ++ String c name) c = Some (String c name).
Proof.
  intros Hn. induction dir as [|a dir IH]; simpl.
  - apply strrchr_None in Hn. rewrite Hn. by rewrite Ascii.eqb_refl.
  - by rewrite IH.
Qed.

(** Property X1.
    The title of a path is its last component. *)
Theorem get_title_last_component dir name :
  has_char "/" name = false ->
  get_title (dir ++ String "/" name) = name /\
  get_title name = name.
Proof.
  intros Hn. unfold get_title. split.
  - by rewrite strrchr_app_last.
  - apply strrchr_None in Hn. by rewrite Hn.
Qed.

Lemma get_title_last_component_witness :
  has_char "/" "fbclock" = false /\
  get_title "/usr/local/bin/fbclock" = "fbclock"%string /\
  get_title "fbclock" = "fbclock"%string.
Proof.
  assert (Hn : has_char "/" "fbclock" = false) by reflexivity.
  split; [exact Hn|].
  exact (get_title_last_component "/usr/local/bin" "fbclock" Hn).
Defined.

(** Property X2.
    For every path, the title holds no slash and is the path without a
    prefix that is empty or ends with a slash; taking the title again
    changes nothing. *)
Theorem get_title_splits_path path :
  has_char "/" (get_title path) = false /\
  (exists dir,
     path = (dir ++ get_title path)%string /\
     (dir = EmptyString \/ exists d, dir = (d ++ "/")%string)) /\
  get_title (get_title path) = get_title path.
Proof.
  assert (has_char "/" (get_title path) = false) as Hno.
  { unfold get_title. destruct (strrchr path "/") as [r|] eqn:Hs.
    - by apply strrchr_Some in Hs as (pre & r' & _ & -> & Hr').
    - by apply strrchr_None. }
  split; [done|]. split.
  - unfold get_title. destruct (strrchr path "/") as [r|] eqn:Hs.
    + apply strrchr_Some in Hs as (pre & r' & -> & -> & Hr'). simpl.
      exists (pre ++ "/")%string. split; [|right; by exists pre].
      clear. induction pre as [|a pre IH]; simpl; [done | by rewrite IH].
    + exists EmptyString. split; [done | by left].
  - apply strrchr_None in Hno. unfold get_title at 1. by rewrite Hno.
Qed.

(** ** [get_arguments] *)

Lemma getopt_loop_valid opts d :
  forallb valid_option opts = true ->
  getopt_loop opts d =
  (0,
   set_fbdev (default (fbdev d) (last (optargs "f" opts)))
     (set_capacity
        match last (optargs "b" opts) with
        | Some path => Some path
        | None => capacity (dev_clock d)
        end d),
   []).
Proof.
  revert d. induction opts as [|[opt optarg] opts IH]; intros d; simpl.
  - intros _. by destruct d as [[]].
  - unfold valid_option at 1. simpl. intros Hv.
    apply andb_prop in Hv as [Ho Hv]. unfold optargs in *. simpl.
    destruct (Ascii.eqb_spec opt "b") as [->|Hb]; simpl.
    + rewrite IH by done. simpl. rewrite last_cons.
      by destruct (last _), (last _).
    + destruct (Ascii.eqb_spec opt "f") as [->|Hf]; [|done]. simpl.
      rewrite IH by done. simpl. rewrite last_cons.
      by destruct (last _), (last _).
Qed.

(** Property X3.
    When every option is [-b] or [-f], [get_arguments] returns 0 and
    prints nothing; the capacity path is the argument of the last [-b],
    absent without one, and the device is the argument of the last [-f],
    [/dev/fb0] without one.  Nothing else of the record changes. *)
Theorem get_arguments_last_option_wins opts d :
  forallb valid_option opts = true ->
  exists d',
    get_arguments opts d = (0, d', []) /\
    capacity (dev_clock d') = last (optargs "b" opts) /\
    fbdev d' = default "/dev/fb0"%string (last (optargs "f" opts)) /\
    finfo (dev_clock d') = finfo (dev_clock d) /\
    vinfo (dev_clock d') = vinfo (dev_clock d) /\
    (title d', file d', video d') = (title d, file d, video d).
Proof.
  intros Hv. unfold get_arguments. rewrite getopt_loop_valid by done.
  eexists. split; [done|]. simpl. by destruct (last (optargs "b" opts)).
Qed.

Lemma get_arguments_last_option_wins_witness :
  forallb valid_option
    [("f"%char, "/dev/fb1"%string); ("b"%char, "/tmp/a"%string);
     ("b"%char, battery_path)] = true /\
  exists d',
    get_arguments
      [("f"%char, "/dev/fb1"%string); ("b"%char, "/tmp/a"%string);
       ("b"%char, battery_path)] (device_on_stack fb_vga)
    = (0, d', []) /\
    capacity (dev_clock d') = Some battery_path /\
    fbdev d' = "/dev/fb1"%string.
Proof.
  assert (Hv : forallb valid_option
    [("f"%char, "/dev/fb1"%string); ("b"%char, "/tmp/a"%string);
     ("b"%char, battery_path)] = true) by reflexivity.
  split; [exact Hv|].
  destruct (get_arguments_last_option_wins _ (device_on_stack fb_vga) Hv)
    as (d' & Hg & Hc & Hf & _).
  exists d'. split; [exact Hg|]. split; [exact Hc | exact Hf].
Defined.

Lemma getopt_loop_app pre rest d :
  forallb valid_option pre = true ->
  getopt_loop (pre ++ rest) d = getopt_loop rest (getopt_loop pre d).1.2.
Proof.
  revert d. induction pre as [|[opt optarg] pre IH]; intros d; simpl; [done|].
  unfold valid_option at 1. simpl. intros Hv.
  apply andb_prop in Hv as [Ho Hv].
  destruct (Ascii.eqb opt "b"); [by apply IH|].
  destruct (Ascii.eqb opt "f"); [by apply IH | done].
Qed.

(** Property X4.
    At the first answer of [getopt] that is neither [b] nor [f],
    [get_arguments] returns 1; the options before it have been applied and
    those after it are not looked at.  What is on [stderr] is the line
    that [getopt] wrote with its answer [?], then the three lines of the
    usage, with the title. *)
Theorem get_arguments_rejects_option pre bad rest d :
  forallb valid_option pre = true ->
  valid_option bad = false ->
  get_arguments (pre ++ bad :: rest) d =
  (1, (get_arguments pre d).1.2, getopt_report bad ++ usage (title d)) /\
  length (usage (title d)) = 3%nat /\
  (bad.1 = "?"%char ->
   getopt_report bad ++ usage (title d)
   = CallStderr bad.2 :: usage (title d)).
Proof.
  intros Hpre Hbad. split; [|split; [done|]].
  - unfold get_arguments. rewrite getopt_loop_app by done.
    rewrite (getopt_loop_valid pre) by done. simpl.
    destruct bad as [opt optarg]. unfold valid_option in Hbad. simpl in Hbad.
    apply orb_false_elim in Hbad as [-> ->]. done.
  - intros Hq. unfold getopt_report. by rewrite Hq.
Qed.

Lemma get_arguments_rejects_option_witness :
  forallb valid_option [("b"%char, battery_path)] = true /\
  valid_option ("?"%char, getopt_line_x) = false /\
  get_arguments
    ([("b"%char, battery_path)]
     ++ ("?"%char, getopt_line_x) :: [("f"%char, "/dev/fb1"%string)])
    (device_on_stack fb_vga)
  = (1,
     (get_arguments [("b"%char, battery_path)] (device_on_stack fb_vga)).1.2,
     CallStderr getopt_line_x :: usage (title (device_on_stack fb_vga))).
Proof.
  assert (Hpre : forallb valid_option [("b"%char, battery_path)] = true)
    by reflexivity.
  assert (Hbad : valid_option ("?"%char, getopt_line_x) = false)
    by reflexivity.
  split; [exact Hpre|]. split; [exact Hbad|].
  exact (proj1 (get_arguments_rejects_option [("b"%char, battery_path)]
                  ("?"%char, getopt_line_x) [("f"%char, "/dev/fb1"%string)]
                  (device_on_stack fb_vga) Hpre Hbad)).
Defined.

(** ** [get_framebuffer_info] and [map_framebuffer] *)

Lemma map_framebuffer_cases k d :
  let fd := sys_open k (fbdev d) in
  let r := map_framebuffer k d in
  (r.1.1 = 0 \/ r.1.1 = 1) /\
  (r.1.1 = 0 <->
   fd <> -1 /\
   exists fixed variable addr,
     sys_fscreeninfo k fd = Some fixed /\
     sys_vscreeninfo k fd = Some variable /\
     sys_mmap k (smem_len fixed) fd = Some addr) /\
  (forall fixed variable addr,
     fd <> -1 ->
     sys_fscreeninfo k fd = Some fixed ->
     sys_vscreeninfo k fd = Some variable ->
     sys_mmap k (smem_len fixed) fd = Some addr ->
     r = (0,
          {| dev_clock := {| capacity := capacity (dev_clock d);
                             finfo := fixed; vinfo := variable |};
             fbdev := fbdev d; title := title d; file := fd;
             video := Some addr |},
          [CallOpen (fbdev d); CallIoctlFix fd; CallIoctlVar fd;
           CallMmap (smem_len fixed) fd])).
Proof.
  intros fd r. subst r fd. unfold map_framebuffer, get_framebuffer_info.
  cbn [file set_file].
  destruct (Z.eqb_spec (sys_open k (fbdev d)) (-1)) as [Ho|Ho].
  { split; [by right|]. split; [|done]. split; [done | tauto]. }
  destruct (sys_fscreeninfo k (sys_open k (fbdev d))) as [fixed|] eqn:Hf.
  2:{ simpl. split; [by right|]. split; [|done].
      split; [done | by intros (_ & ? & ? & ? & ? & _)]. }
  destruct (sys_vscreeninfo k (sys_open k (fbdev d))) as [variable|] eqn:Hv.
  2:{ simpl. split; [by right|]. split; [|done].
      split; [done | by intros (_ & ? & ? & ? & _ & ? & _)]. }
  simpl.
  destruct (sys_mmap k (smem_len fixed) (sys_open k (fbdev d)))
    as [addr|] eqn:Hm; simpl.
  - split; [by left|]. split.
    + split; [|done]. intros _. split; [done|]. by exists fixed, variable, addr.
    + intros ? ? ? _ [= <-] [= <-] Hm'. rewrite Hm in Hm'.
      by injection Hm' as <-.
  - split; [by right|]. split.
    + split; [done|]. intros (_ & ? & ? & ? & [= <-] & _ & Hm').
      rewrite Hm in Hm'. discriminate.
    + intros ? ? ? _ [= <-] _ Hm'. rewrite Hm in Hm'. discriminate.
Qed.

(** Property X5.
    [map_framebuffer] returns 0 exactly when [open], the two [ioctl]s and
    [mmap] all succeed, and 1 otherwise.  On success the calls are [open],
    the two [ioctl]s and one [mmap] of [smem_len] bytes, nothing is
    printed, and the record holds the descriptor, the two screen
    informations as the kernel gave them, and the mapping. *)
Theorem map_framebuffer_success k d :
  let fd := sys_open k (fbdev d) in
  let r := map_framebuffer k d in
  (r.1.1 = 0 \/ r.1.1 = 1) /\
  (r.1.1 = 0 <->
   fd <> -1 /\
   exists fixed variable addr,
     sys_fscreeninfo k fd = Some fixed /\
     sys_vscreeninfo k fd = Some variable /\
     sys_mmap k (smem_len fixed) fd = Some addr) /\
  (forall fixed variable addr,
     fd <> -1 ->
     sys_fscreeninfo k fd = Some fixed ->
     sys_vscreeninfo k fd = Some variable ->
     sys_mmap k (smem_len fixed) fd = Some addr ->
     r = (0,
          {| dev_clock := {| capacity := capacity (dev_clock d);
                             finfo := fixed; vinfo := variable |};
             fbdev := fbdev d; title := title d; file := fd;
             video := Some addr |},
          [CallOpen (fbdev d); CallIoctlFix fd; CallIoctlVar fd;
           CallMmap (smem_len fixed) fd])).
Proof.
  intros fd r.
  destruct (map_framebuffer_cases k d) as (Hstatus & Hiff & Hmapped).
  split; [exact Hstatus|]. split; [exact Hiff | exact Hmapped].
Qed.

Lemma map_framebuffer_success_witness :
  sys_open kernel_vga "/dev/fb0" <> -1 /\
  map_framebuffer kernel_vga
    (set_fbdev "/dev/fb0" (set_title "fbclock" (device_on_stack fb_64x64)))
  = (0,
     {| dev_clock := fb_vga; fbdev := "/dev/fb0"; title := "fbclock";
        file := 3; video := Some 4096 |},
     [CallOpen "/dev/fb0"; CallIoctlFix 3; CallIoctlVar 3;
      CallMmap 1228800 3]).
Proof.
  assert (Ho : sys_open kernel_vga "/dev/fb0" <> -1) by (simpl; lia).
  split; [exact Ho|].
  pose proof (map_framebuffer_success kernel_vga
    (set_fbdev "/dev/fb0" (set_title "fbclock" (device_on_stack fb_64x64))))
    as (_ & _ & Hok).
  exact (Hok (finfo fb_vga) (vinfo fb_vga) 4096 Ho eq_refl eq_refl eq_refl).
Defined.

Lemma string_app_assoc (a b c : string) :
  ((a ++ b) ++ c = a ++ (b ++ c))%string.
Proof. induction a as [|x a IH]; simpl; [done | by rewrite IH]. Qed.

(** Property X6.
    Whenever [map_framebuffer] returns 1 it has printed one line and that
    line is its last call; the line starts with the title of the program
    and ends with [failed.], a space and a newline. *)
Theorem map_framebuffer_reports_failure k d :
  let r := map_framebuffer k d in
  r.1.1 = 1 ->
  exists calls what,
    r.2 = calls ++
          [CallStderr (title d ++ ": " ++ what ++ " failed. " ++ line_end)] /\
    List.filter is_stderr calls = [].
Proof.
  intros r. subst r. unfold map_framebuffer, get_framebuffer_info.
  cbn [file set_file title].
  destruct (Z.eqb_spec (sys_open k (fbdev d)) (-1)) as [Ho|Ho].
  { intros _. exists [CallOpen (fbdev d)].
    exists ("open(" ++ String (ascii_of_nat 34) (fbdev d)
            ++ String (ascii_of_nat 34) ", O_RDWR | O_NONBLOCK) in "
            ++ "map_framebuffer")%string.
    split; [|done]. simpl. do 3 f_equal. simpl.
    rewrite ?string_app_assoc. reflexivity. }
  destruct (sys_fscreeninfo k (sys_open k (fbdev d))) as [fixed|] eqn:Hf.
  2:{ intros _.
      exists [CallOpen (fbdev d); CallIoctlFix (sys_open k (fbdev d))].
      exists "ioctl (FBIOGET_FSCREENINFO) in get_framebuffer_info"%string.
      by split. }
  destruct (sys_vscreeninfo k (sys_open k (fbdev d))) as [variable|] eqn:Hv.
  2:{ intros _.
      exists [CallOpen (fbdev d); CallIoctlFix (sys_open k (fbdev d));
              CallIoctlVar (sys_open k (fbdev d))].
      exists "ioctl (FBIOGET_VSCREENINFO) in get_framebuffer_info"%string.
      by split. }
  simpl.
  destruct (sys_mmap k (smem_len fixed) (sys_open k (fbdev d)))
    as [addr|] eqn:Hm; simpl; [done|].
  intros _.
  exists [CallOpen (fbdev d); CallIoctlFix (sys_open k (fbdev d));
          CallIoctlVar (sys_open k (fbdev d));
          CallMmap (smem_len fixed) (sys_open k (fbdev d));
          CallClose (sys_open k (fbdev d))].
  exists "mmap in map_framebuffer"%string. by split.
Qed.

Lemma map_framebuffer_reports_failure_witness :
  (map_framebuffer kernel_no_vinfo
     (set_fbdev "/dev/fb0" (set_title "fbclock" (device_on_stack fb_64x64)))
  ).1.1 = 1 /\
  exists calls what,
    (map_framebuffer kernel_no_vinfo
       (set_fbdev "/dev/fb0" (set_title "fbclock" (device_on_stack fb_64x64)))
    ).2 = calls ++
          [CallStderr ("fbclock" ++ ": " ++ what ++ " failed. " ++ line_end)] /\
    List.filter is_stderr calls = [].
Proof.
  assert (Hfail :
    (map_framebuffer kernel_no_vinfo
       (set_fbdev "/dev/fb0" (set_title "fbclock" (device_on_stack fb_64x64)))
    ).1.1 = 1) by reflexivity.
  split; [exact Hfail|].
  exact (map_framebuffer_reports_failure kernel_no_vinfo
           (set_fbdev "/dev/fb0"
              (set_title "fbclock" (device_on_stack fb_64x64))) Hfail).
Defined.

(** Property X7.
    The descriptor after a failure.  [mmap] is not attempted after a
    failed [ioctl], and then the descriptor that [open] returned is not
    closed; after a failed [mmap] it is closed, once, just after the
    [mmap].  No path closes the descriptor when [map_framebuffer]
    returns 0. *)
Theorem map_framebuffer_descriptor k d :
  let fd := sys_open k (fbdev d) in
  let r := map_framebuffer k d in
  (fd <> -1 ->
   sys_fscreeninfo k fd = None \/ sys_vscreeninfo k fd = None ->
   r.1.1 = 1 /\ file r.1.2 = fd /\
   List.filter is_mmap r.2 = [] /\ List.filter is_close r.2 = []) /\
  (forall fixed variable,
     fd <> -1 ->
     sys_fscreeninfo k fd = Some fixed ->
     sys_vscreeninfo k fd = Some variable ->
     sys_mmap k (smem_len fixed) fd = None ->
     r.1.1 = 1 /\
     List.filter (fun c => is_mmap c || is_close c) r.2
     = [CallMmap (smem_len fixed) fd; CallClose fd]) /\
  (r.1.1 = 0 -> List.filter is_close r.2 = []).
Proof.
  intros fd r. subst r fd. unfold map_framebuffer, get_framebuffer_info.
  cbn [file set_file title].
  destruct (Z.eqb_spec (sys_open k (fbdev d)) (-1)) as [Ho|Ho].
  { split; [done|]. split; [done|]. simpl. lia. }
  destruct (sys_fscreeninfo k (sys_open k (fbdev d))) as [fixed|] eqn:Hf.
  2:{ simpl. split; [|split]; [done | done | lia]. }
  destruct (sys_vscreeninfo k (sys_open k (fbdev d))) as [variable|] eqn:Hv.
  2:{ simpl. split; [|split]; [done | done | lia]. }
  simpl.
  destruct (sys_mmap k (smem_len fixed) (sys_open k (fbdev d)))
    as [addr|] eqn:Hm; simpl.
  - split; [by intros _ [|]|]. split; [|done].
    intros ? ? _ [= <-] _ Hm'. rewrite Hm in Hm'. discriminate.
  - split; [by intros _ [|]|]. split; [|lia].
    by intros ? ? _ [= <-] _ _.
Qed.

Lemma map_framebuffer_descriptor_witness :
  sys_open kernel_no_vinfo "/dev/fb0" <> -1 /\
  (sys_fscreeninfo kernel_no_vinfo 3 = None \/
   sys_vscreeninfo kernel_no_vinfo 3 = None) /\
  List.filter is_close
    (map_framebuffer kernel_no_vinfo
       (set_fbdev "/dev/fb0" (set_title "fbclock" (device_on_stack fb_64x64)))
    ).2 = [].
Proof.
  assert (Ho : sys_open kernel_no_vinfo "/dev/fb0" <> -1) by (simpl; lia).
  assert (Hi : sys_fscreeninfo kernel_no_vinfo 3 = None \/
               sys_vscreeninfo kernel_no_vinfo 3 = None) by (by right).
  split; [exact Ho|]. split; [exact Hi|].
  pose proof (map_framebuffer_descriptor kernel_no_vinfo
    (set_fbdev "/dev/fb0" (set_title "fbclock" (device_on_stack fb_64x64))))
    as (Hioctl & _ & _).
  exact (proj2 (proj2 (proj2 (Hioctl Ho Hi)))).
Defined.

(** ** [main] *)

Lemma getopt_loop_title opts d : title (getopt_loop opts d).1.2 = title d.
Proof.
  revert d. induction opts as [|[opt optarg] opts IH]; intros d; simpl; [done|].
  destruct (Ascii.eqb opt "b"); [by rewrite IH|].
  destruct (Ascii.eqb opt "f"); [by rewrite IH | done].
Qed.

Lemma getopt_loop_invalid opts d :
  forallb valid_option opts = false ->
  exists bad,
    rejected_option opts = Some bad /\
    (getopt_loop opts d).1.1 = 1 /\
    (getopt_loop opts d).2 = getopt_report bad ++ usage (title d).
Proof.
  unfold rejected_option.
  revert d. induction opts as [|[opt optarg] opts IH]; intros d; simpl; [done|].
  unfold valid_option at 1 3. simpl.
  destruct (Ascii.eqb opt "b"); simpl.
  { intros Hv. destruct (IH (set_capacity (Some optarg) d) Hv)
      as (bad & ? & ? & ?). by exists bad. }
  destruct (Ascii.eqb opt "f"); simpl.
  - intros Hv. destruct (IH (set_fbdev optarg d) Hv) as (bad & ? & ? & ?).
    by exists bad.
  - intros _. by exists (opt, optarg).
Qed.

Lemma getopt_report_no_open_no_fork bad t :
  List.filter is_open (getopt_report bad ++ usage t) = [] /\
  List.filter is_fork (getopt_report bad ++ usage t) = [].
Proof. unfold getopt_report. by destruct (Ascii.eqb bad.1 "?"). Qed.

Lemma map_framebuffer_never_forks k d :
  List.filter is_fork (map_framebuffer k d).2 = [].
Proof.
  unfold map_framebuffer, get_framebuffer_info. cbn [file set_file].
  destruct (sys_open k (fbdev d) =? -1); [done|].
  destruct (sys_fscreeninfo k (sys_open k (fbdev d))); [|done].
  destruct (sys_vscreeninfo k (sys_open k (fbdev d))); [|done]. simpl.
  by destruct (sys_mmap k _ _).
Qed.

Lemma main_invalid_arguments k argv0 opts d :
  forallb valid_option opts = false ->
  exists bad,
    rejected_option opts = Some bad /\
    main k argv0 opts d
    = (Exit 1, getopt_report bad ++ usage (get_title argv0)).
Proof.
  intros Hv. unfold main, get_arguments.
  destruct (getopt_loop_invalid opts
              (set_fbdev "/dev/fb0"
                 (set_capacity None (set_title (get_title argv0) d))) Hv)
    as (bad & Hbad & Hs & Hc).
  exists bad. split; [done|].
  destruct (getopt_loop opts _) as [[status d1] c1]. simpl in *. by subst.
Qed.

(** The record with which [main] calls [map_framebuffer]. *)
Lemma main_valid_arguments k argv0 opts d :
  forallb valid_option opts = true ->
  main k argv0 opts d =
  let d1 :=
    {| dev_clock := {| capacity := last (optargs "b" opts);
                       finfo := finfo (dev_clock d);
                       vinfo := vinfo (dev_clock d) |};
       fbdev := device_path opts; title := get_title argv0;
       file := file d; video := video d |} in
  let '(status, d2, c2) := map_framebuffer k d1 in
  if negb (status =? 0) then (Exit 1, c2)
  else
    if sys_fork k <? 0 then (Exit 1, c2 ++ [CallFork])
    else if sys_fork k >? 0 then (Exit 0, c2 ++ [CallFork])
    else if sys_setsid k <? 0 then (Exit 2, c2 ++ [CallFork; CallSetsid])
    else (Daemon d2, c2 ++ CallFork :: detach_calls).
Proof.
  intros Hv. unfold main, get_arguments.
  rewrite getopt_loop_valid by done. cbn -[map_framebuffer].
  replace (match last (optargs "b" opts) with
           | Some path => Some path
           | None => None
           end) with (last (optargs "b" opts))
    by (by destruct (last (optargs "b" opts))).
  fold (device_path opts).
  by destruct (map_framebuffer k _) as [[status d2] c2].
Qed.

Lemma main_cases k argv0 opts d :
  let r := main k argv0 opts d in
  let fd := sys_open k (device_path opts) in
  (forallb valid_option opts = false /\
   exists bad,
     rejected_option opts = Some bad /\
     r = (Exit 1, getopt_report bad ++ usage (get_title argv0))) \/
  (forallb valid_option opts = true /\
   (forall fixed variable addr, ~ startup_ok k opts fixed variable addr) /\
   r.1 = Exit 1 /\ List.filter is_fork r.2 = []) \/
  (exists fixed variable addr,
     startup_ok k opts fixed variable addr /\
     if sys_fork k <? 0 then r = (Exit 1, startup_calls opts fixed fd)
     else if sys_fork k >? 0 then r = (Exit 0, startup_calls opts fixed fd)
     else if sys_setsid k <? 0
     then r = (Exit 2, startup_calls opts fixed fd ++ [CallSetsid])
     else r = (Daemon
                 {| dev_clock := {| capacity := last (optargs "b" opts);
                                    finfo := fixed; vinfo := variable |};
                    fbdev := device_path opts; title := get_title argv0;
                    file := fd; video := Some addr |},
               startup_calls opts fixed fd ++ detach_calls)).
Proof.
  intros r fd. subst r fd.
  destruct (forallb valid_option opts) eqn:Hv.
  2:{ left. split; [done|]. by apply main_invalid_arguments. }
  right. rewrite main_valid_arguments by done. cbv zeta.
  match goal with
  | |- context [map_framebuffer k ?d1] =>
    pose proof (map_framebuffer_cases k d1) as (Hst & Hiff & Hok);
    cbn [fbdev] in Hst, Hiff, Hok
  end.
  match goal with
  | |- context [map_framebuffer k ?d1] =>
    pose proof (map_framebuffer_never_forks k d1) as Hnf
  end.
  destruct (map_framebuffer k _) as [[status d2] c2] eqn:Hm.
  cbn [fst snd] in *.
  destruct Hst as [-> | ->]; simpl.
  - right. destruct (proj1 Hiff eq_refl) as (Ho & fixed & variable & addr
                                              & Hf & Hvi & Hmm).
    exists fixed, variable, addr. split; [done|].
    specialize (Hok fixed variable addr Ho Hf Hvi Hmm).
    injection Hok as Hd Hc. subst d2 c2.
    unfold startup_calls, detach_calls.
    by destruct (sys_fork k <? 0), (sys_fork k >? 0), (sys_setsid k <? 0).
  - left. split; [done|]. split; [|split; [done|]].
    + intros fixed variable addr (_ & Ho & Hf & Hvi & Hmm).
      assert (1 = 0); [|done]. apply Hiff. split; [done|].
      by exists fixed, variable, addr.
    + done.
Qed.

Lemma startup_ok_unique k opts f1 v1 a1 f2 v2 a2 :
  startup_ok k opts f1 v1 a1 -> startup_ok k opts f2 v2 a2 ->
  f1 = f2 /\ v1 = v2 /\ a1 = a2.
Proof.
  intros (_ & _ & Hf1 & Hv1 & Hm1) (_ & _ & Hf2 & Hv2 & Hm2).
  rewrite Hf1 in Hf2. injection Hf2 as <-.
  rewrite Hv1 in Hv2. injection Hv2 as <-.
  rewrite Hm1 in Hm2. by injection Hm2 as <-.
Qed.

(** Property X8.
    [main] enters [run_clock] exactly when the options are accepted, the
    frame buffer is mapped, [fork] returns 0 and [setsid] does not fail.
    It has then made, in this order, the calls [open], the two [ioctl]s,
    [mmap], [fork], [setsid], [chdir] to the root, the [close] of the
    three standard streams and the registration of the handler of
    [SIGINT]; the record it passes has the title of [argv[0]], the
    capacity path of the last [-b], the device of the last [-f] and the
    geometry that the kernel returned. *)
Theorem main_enters_run_clock k argv0 opts d :
  let r := main k argv0 opts d in
  ((exists d', r.1 = Daemon d') <->
   (exists fixed variable addr, startup_ok k opts fixed variable addr) /\
   sys_fork k = 0 /\ 0 <= sys_setsid k) /\
  (forall fixed variable addr,
     startup_ok k opts fixed variable addr ->
     sys_fork k = 0 -> 0 <= sys_setsid k ->
     r = (Daemon
            {| dev_clock := {| capacity := last (optargs "b" opts);
                               finfo := fixed; vinfo := variable |};
               fbdev := device_path opts; title := get_title argv0;
               file := sys_open k (device_path opts); video := Some addr |},
          startup_calls opts fixed (sys_open k (device_path opts))
          ++ detach_calls)).
Proof.
  intros r. pose proof (main_cases k argv0 opts d) as Hc. fold r in Hc.
  cbv zeta in Hc. split.
  - split.
    + intros [d' Hd].
      destruct Hc
        as [(_ & bad & _ & Hr)|[(_ & _ & Hr & _)|(f & v & a & Hok & Hr)]];
        [rewrite Hr in Hd; discriminate | rewrite Hr in Hd; discriminate |].
      split; [by exists f, v, a|].
      destruct (Z.ltb_spec (sys_fork k) 0);
        [rewrite Hr in Hd; discriminate|].
      destruct (Z.gtb_spec (sys_fork k) 0);
        [rewrite Hr in Hd; discriminate|].
      destruct (Z.ltb_spec (sys_setsid k) 0);
        [rewrite Hr in Hd; discriminate|]. lia.
    + intros ((f & v & a & Hok) & Hfork & Hsid).
      destruct Hc as [[Hv _]|[(_ & Hno & _)|(f' & v' & a' & _ & Hr)]].
      * destruct Hok as [Hv' _]. congruence.
      * by destruct (Hno f v a).
      * rewrite Hfork in Hr. simpl in Hr.
        destruct (Z.ltb_spec (sys_setsid k) 0); [lia|].
        rewrite Hr. by eexists.
  - intros f v a Hok Hfork Hsid.
    destruct Hc as [[Hv _]|[(_ & Hno & _)|(f' & v' & a' & Hok' & Hr)]].
    + destruct Hok as [Hv' _]. congruence.
    + by destruct (Hno f v a).
    + destruct (startup_ok_unique _ _ _ _ _ _ _ _ Hok Hok') as (-> & -> & ->).
      rewrite Hfork in Hr. simpl in Hr.
      by destruct (Z.ltb_spec (sys_setsid k) 0); [lia|].
Qed.

Lemma main_enters_run_clock_witness :
  startup_ok kernel_vga [("b"%char, battery_path)]
    (finfo fb_vga) (vinfo fb_vga) 4096 /\
  sys_fork kernel_vga = 0 /\
  0 <= sys_setsid kernel_vga /\
  main kernel_vga "/usr/bin/fbclock" [("b"%char, battery_path)]
    (device_on_stack fb_64x64)
  = (Daemon {| dev_clock := fb_vga_battery; fbdev := "/dev/fb0";
               title := "fbclock"; file := 3; video := Some 4096 |},
     [CallOpen "/dev/fb0"; CallIoctlFix 3; CallIoctlVar 3;
      CallMmap 1228800 3; CallFork; CallSetsid; CallChdir "/";
      CallClose 0; CallClose 1; CallClose 2; CallSignal 2]).
Proof.
  assert (Hok : startup_ok kernel_vga [("b"%char, battery_path)]
                  (finfo fb_vga) (vinfo fb_vga) 4096).
  { repeat split. simpl. lia. }
  assert (Hfork : sys_fork kernel_vga = 0) by reflexivity.
  assert (Hsid : 0 <= sys_setsid kernel_vga) by (simpl; lia).
  split; [exact Hok|]. split; [exact Hfork|]. split; [exact Hsid|].
  exact (proj2 (main_enters_run_clock kernel_vga "/usr/bin/fbclock"
                  [("b"%char, battery_path)] (device_on_stack fb_64x64))
           (finfo fb_vga) (vinfo fb_vga) 4096 Hok Hfork Hsid).
Defined.

(** Property X9.
    The exit status of [main] when it does not enter [run_clock]: 1 when
    an option is rejected, when the frame buffer is not mapped or when
    [fork] fails; 0 in the parent of a successful [fork]; 2 in the child
    when [setsid] fails.  After a rejected option [stderr] holds the line
    of [getopt] and the usage, and that is all: the device is not opened.
    [main] does not call [fork] unless the frame buffer is mapped. *)
Theorem main_exit_status k argv0 opts d :
  let r := main k argv0 opts d in
  let mapped := exists fixed variable addr,
                  startup_ok k opts fixed variable addr in
  (forall s, r.1 = Exit s ->
     (s = 1 /\ (forallb valid_option opts = false \/ ~ mapped \/
                sys_fork k < 0)) \/
     (s = 0 /\ mapped /\ 0 < sys_fork k) \/
     (s = 2 /\ mapped /\ sys_fork k = 0 /\ sys_setsid k < 0)) /\
  (forallb valid_option opts = false ->
   exists bad,
     rejected_option opts = Some bad /\
     r = (Exit 1, getopt_report bad ++ usage (get_title argv0)) /\
     List.filter is_open r.2 = []) /\
  (List.filter is_fork r.2 <> [] -> mapped).
Proof.
  intros r mapped. pose proof (main_cases k argv0 opts d) as Hc. fold r in Hc.
  cbv zeta in Hc. split; [|split].
  - intros s Hs.
    destruct Hc
      as [(Hv & bad & _ & Hr)|[(_ & Hno & Hr & _)|(f & v & a & Hok & Hr)]].
    + rewrite Hr in Hs. injection Hs as <-. left. tauto.
    + rewrite Hr in Hs. injection Hs as <-. left. split; [done|].
      right. left. intros (f & v & a & Hok). by destruct (Hno f v a).
    + assert (mapped) as Hm by (by exists f, v, a).
      destruct (Z.ltb_spec (sys_fork k) 0).
      { rewrite Hr in Hs. injection Hs as <-. left. tauto. }
      destruct (Z.gtb_spec (sys_fork k) 0).
      { rewrite Hr in Hs. injection Hs as <-. right. left.
        split; [done|]. split; [done | lia]. }
      destruct (Z.ltb_spec (sys_setsid k) 0).
      { rewrite Hr in Hs. injection Hs as <-. right. right.
        split; [done|]. split; [done|]. split; [lia | done]. }
      rewrite Hr in Hs. discriminate.
  - intros Hv. subst r.
    destruct (main_invalid_arguments k argv0 opts d Hv) as (bad & Hbad & ->).
    exists bad. split; [done|]. split; [done|].
    apply getopt_report_no_open_no_fork.
  - intros Hfork.
    destruct Hc
      as [(_ & bad & _ & Hr)|[(_ & _ & _ & Hr)|(f & v & a & Hok & _)]].
    + rewrite Hr in Hfork. destruct Hfork.
      apply getopt_report_no_open_no_fork.
    + done.
    + by exists f, v, a.
Qed.

Lemma main_exit_status_witness :
  forallb valid_option [("?"%char, getopt_line_x)] = false /\
  exists bad,
    rejected_option [("?"%char, getopt_line_x)] = Some bad /\
    main kernel_vga "./fbclock" [("?"%char, getopt_line_x)]
      (device_on_stack fb_64x64)
    = (Exit 1, getopt_report bad ++ usage "fbclock") /\
    List.filter is_open
      (main kernel_vga "./fbclock" [("?"%char, getopt_line_x)]
         (device_on_stack fb_64x64)).2 = [].
Proof.
  assert (Hv : forallb valid_option [("?"%char, getopt_line_x)] = false)
    by reflexivity.
  split; [exact Hv|].
  pose proof (main_exit_status kernel_vga "./fbclock"
                [("?"%char, getopt_line_x)] (device_on_stack fb_64x64))
    as (_ & Hinv & _).
  exact (Hinv Hv).
Defined.

(** * More on the renderer *)

(** ** What a replay leaves at an address *)

Lemma replay_lookup_untouched ws (mem mem' : list Z) (a : nat) :
  replay ws mem = Some mem' ->
  Z.of_nat a ∉ ws.*1 ->
  mem' !! a = mem !! a.
Proof.
  revert mem. induction ws as [|w ws IH]; intros mem; cbn [replay].
  - by intros [= ->].
  - destruct (store_byte w mem) as [mem1|] eqn:Hs; [|done].
    intros Hr Hn. rewrite fmap_cons in Hn.
    apply not_elem_of_cons in Hn as [Ha Hn].
    rewrite (IH _ Hr Hn). apply store_byte_Some in Hs as [Hrange ->].
    apply list_lookup_insert_ne. lia.
Qed.

Lemma replay_lookup_written ws (mem mem' : list Z) (a : nat) (v : Z) :
  replay ws mem = Some mem' ->
  Z.of_nat a ∈ ws.*1 ->
  (forall w, w ∈ ws -> w.1 = Z.of_nat a -> w.2 = v) ->
  mem' !! a = Some v.
Proof.
  revert mem. induction ws as [|w ws IH]; intros mem; cbn [replay].
  - intros _ Hin. by apply elem_of_nil in Hin.
  - destruct (store_byte w mem) as [mem1|] eqn:Hs; [|done].
    intros Hr Hin Hv. rewrite fmap_cons in Hin.
    destruct (decide (Z.of_nat a ∈ ws.*1)) as [Hrest|Hrest].
    + apply (IH _ Hr Hrest). intros w' Hw'. apply Hv. by right.
    + apply elem_of_cons in Hin as [Ha|Hin]; [|done].
      rewrite (replay_lookup_untouched _ _ _ _ Hr Hrest).
      apply store_byte_Some in Hs as [Hrange ->].
      replace (Z.to_nat w.1) with a by lia.
      rewrite list_lookup_insert_eq by lia.
      f_equal. apply Hv; [by left | done].
Qed.

(** ** The stores of a glyph and of a text *)

Section Cells.
Context `{GlyphTable}.

Lemma elem_of_glyph_stores_iff clock x y ch (w : store) :
  w ∈ glyph_stores clock x y ch <->
  exists r col, 0 <= r < 8 /\ 0 <= col < 8 /\
    cursor clock x y r col <= w.1
      < cursor clock x y r col + bytes_per_pixel clock /\
    w.2 = pixel_byte (font8x8_basic ch r) col.
Proof.
  unfold glyph_stores. rewrite list_elem_of_bind. split.
  - intros (r & Hw & Hr). apply list_elem_of_bind in Hw as (col & Hw & Hcol).
    apply elem_of_seqZ in Hr, Hcol. apply elem_of_memset in Hw as [Hw Hv].
    exists r, col. unfold FONT_HEIGHT, FONT_WIDTH in *.
    repeat split; lia || done.
  - intros (r & col & Hr & Hcol & Hw & Hv). exists r. split.
    + apply list_elem_of_bind. exists col. split.
      * apply elem_of_memset. split; [lia | done].
      * apply elem_of_seqZ. unfold FONT_WIDTH. lia.
    + apply elem_of_seqZ. unfold FONT_HEIGHT. lia.
Qed.

Lemma elem_of_draw_text clock x y text n ws (w : store) :
  draw_text clock x y text n = Some ws ->
  w ∈ ws <->
  exists i : nat, (i < n)%nat /\
    w ∈ glyph_stores clock (x + Z.of_nat i * FONT_WIDTH) y (text_char text i).
Proof.
  revert ws. induction n as [|n IH]; intros ws; cbn [draw_text].
  - intros [= <-]. split; [by intros ?%elem_of_nil | intros (i & ? & _); lia].
  - rewrite draw_char_closed.
    destruct (draw_text clock x y text n) as [ws'|]; [|done].
    intros [= <-]. rewrite elem_of_app, (IH ws' eq_refl). split.
    + intros [Hw|(i & Hi & Hw)]; [exists n | exists i]; split; done || lia.
    + intros (i & Hi & Hw). destruct (decide (i = n)) as [->|Hne]; [by left|].
      right. exists i. split; [lia | done].
Qed.

End Cells.

Lemma euclid_unique d q1 s1 q2 s2 :
  0 <= s1 < d -> 0 <= s2 < d -> q1 * d + s1 = q2 * d + s2 ->
  q1 = q2 /\ s1 = s2.
Proof.
  intros H1 H2 He.
  destruct (Z.div_mod_unique d q1 q2 s1 s2) as [-> ->];
    [lia | lia | lia | done].
Qed.

Section Effects.
Context `{GlyphTable}.

(** Two pixels of a glyph that share a byte are the same pixel. *)
Lemma glyph_pixel_unique ll bpp r col b r' col' b' :
  8 * bpp <= ll ->
  0 <= r -> 0 <= r' ->
  0 <= col < 8 -> 0 <= col' < 8 ->
  0 <= b < bpp -> 0 <= b' < bpp ->
  r * ll + col * bpp + b = r' * ll + col' * bpp + b' ->
  r = r' /\ col = col' /\ b = b'.
Proof.
  intros Hw Hr Hr' Hc Hc' Hb Hb' He.
  assert (0 <= col * bpp + b < ll) by nia.
  assert (0 <= col' * bpp + b' < ll) by nia.
  destruct (euclid_unique ll r (col * bpp + b) r' (col' * bpp + b'))
    as [-> He2]; [done | done | lia |].
  destruct (euclid_unique bpp col b col' b') as [-> ->]; done.
Qed.

(** Property X10.
    The surface after [draw_char], when the cell lies in the mapping and
    the rows are at least one glyph wide: each of the 64 pixels of the
    cell holds, in all its bytes, [0xFF] where the bit of the glyph is set
    and [0x00] where it is not, and every byte outside these pixels is
    what it was. *)
Theorem draw_char_renders_glyph clock x y ch (mem : list Z) :
  wf_geometry clock ->
  Z.of_nat (length mem) = smem_len (finfo clock) ->
  FONT_WIDTH * bytes_per_pixel clock <= line_length (finfo clock) ->
  0 <= char_origin clock x y ->
  char_origin clock x y + 7 * line_length (finfo clock)
    + FONT_WIDTH * bytes_per_pixel clock <= smem_len (finfo clock) ->
  let origin := char_origin clock x y in
  let stride := line_length (finfo clock) in
  let bpp := bytes_per_pixel clock in
  exists p ws mem',
    draw_char clock x y ch = Some (p, ws) /\
    replay ws mem = Some mem' /\
    length mem' = length mem /\
    (forall r col b,
       0 <= r < 8 -> 0 <= col < 8 -> 0 <= b < bpp ->
       mem' !! Z.to_nat (origin + r * stride + col * bpp + b)
       = Some (if Z.testbit (font8x8_basic ch r) col then 255 else 0)) /\
    (forall a : nat,
       (forall r col, 0 <= r < 8 -> 0 <= col < 8 ->
          ~ (origin + r * stride + col * bpp <= Z.of_nat a
             < origin + r * stride + (col + 1) * bpp)) ->
       mem' !! a = mem !! a).
Proof.
  intros Hwf Hlen Hwide Horigin Hfit origin stride bpp.
  pose proof (bytes_per_pixel_nonneg clock Hwf) as Hb.
  pose proof (pitch_exact clock Hwf Hwide) as Hpitch.
  destruct Hwf as (_ & Hl & _). unfold is_u32, FONT_WIDTH in *.
  assert (forall w, w ∈ glyph_stores clock x y ch ->
            exists r col b, 0 <= r < 8 /\ 0 <= col < 8 /\ 0 <= b < bpp /\
              w.1 = origin + r * stride + col * bpp + b /\
              w.2 = pixel_byte (font8x8_basic ch r) col) as Hcell.
  { intros w Hw. apply elem_of_glyph_stores_iff in Hw
      as (r & col & Hr & Hc & Ha & Hv).
    unfold cursor in Ha. rewrite Hpitch in Ha. fold origin stride bpp in Ha.
    exists r, col, (w.1 - (origin + r * stride + col * bpp)).
    repeat split; lia || done. }
  assert (is_Some (replay (glyph_stores clock x y ch) mem)) as [mem' Hr].
  { apply replay_is_Some, Forall_forall. intros w Hw.
    destruct (Hcell w Hw) as (r & col & b & Hr & Hc & Hb' & -> & _).
    subst origin stride bpp. nia. }
  exists (cursor clock x y 8 0), (glyph_stores clock x y ch), mem'.
  split; [apply draw_char_closed|]. split; [done|].
  split; [by eapply replay_length|]. split.
  - intros r col b Hr' Hc Hb'.
    assert (0 <= origin + r * stride + col * bpp + b) as Hpos
      by (subst origin stride bpp; nia).
    apply (replay_lookup_written _ _ _ _ _ Hr).
    + rewrite Z2Nat.id by done. apply list_elem_of_fmap.
      exists (origin + r * stride + col * bpp + b,
              pixel_byte (font8x8_basic ch r) col).
      split; [done|]. apply elem_of_glyph_stores_iff. exists r, col.
      unfold cursor. rewrite Hpitch. fold origin stride bpp. simpl.
      repeat split; lia.
    + intros w Hw Ha. rewrite Z2Nat.id in Ha by done.
      destruct (Hcell w Hw) as (r' & col' & b' & Hr2 & Hc2 & Hb2 & Ha' & ->).
      destruct (glyph_pixel_unique stride bpp r' col' b' r col b)
        as (-> & -> & _); try lia. done.
  - intros a Hout. apply (replay_lookup_untouched _ _ _ _ Hr).
    intros Hin. apply list_elem_of_fmap in Hin as (w & Ha & Hw).
    destruct (Hcell w Hw) as (r & col & b & Hr2 & Hc2 & Hb2 & Ha' & _).
    apply (Hout r col Hr2 Hc2). lia.
Qed.

End Effects.

Section Frame.
Context `{GlyphTable}.

(** Property X11.
    The surface after the stores of one tick, when the strip lies in the
    mapping and the text fits in one row: in the eight rows of the strip,
    the pixel [col] of row [r] of the character [i] holds the bit of its
    glyph, as [0xFF] or [0x00] in all its bytes; the bytes of the strip to
    the left and to the right of the text are zero; every byte outside
    the strip is what it was. *)
Theorem tick_renders_text clock x text (mem : list Z) :
  wf_geometry clock ->
  Z.of_nat (length mem) = smem_len (finfo clock) ->
  FONT_HEIGHT + 2 <= yres (vinfo clock) ->
  yres (vinfo clock) * line_length (finfo clock) <= smem_len (finfo clock) ->
  0 <= x ->
  (x + FONT_WIDTH * Z.of_nat (String.length text)) * bytes_per_pixel clock
    <= line_length (finfo clock) ->
  let stride := line_length (finfo clock) in
  let bpp := bytes_per_pixel clock in
  let top := (yres (vinfo clock) - FONT_HEIGHT - 2) * stride in
  exists ws mem',
    tick_stores clock x text = Some ws /\
    replay ws mem = Some mem' /\
    length mem' = length mem /\
    (forall (i : nat) r col b,
       (i < String.length text)%nat ->
       0 <= r < 8 -> 0 <= col < 8 -> 0 <= b < bpp ->
       mem' !! Z.to_nat (top + r * stride
                         + (x + 8 * Z.of_nat i + col) * bpp + b)
       = Some (if Z.testbit (font8x8_basic (text_char text i) r) col
               then 255 else 0)) /\
    (forall r c,
       0 <= r < 8 -> 0 <= c < stride ->
       ~ (x * bpp <= c
          < (x + 8 * Z.of_nat (String.length text)) * bpp) ->
       mem' !! Z.to_nat (top + r * stride + c) = Some 0) /\
    (forall a : nat,
       ~ (top <= Z.of_nat a < top + 8 * stride) -> mem' !! a = mem !! a).
Proof.
  intros Hwf Hlen Hy Hfit Hx Hrow stride bpp top.
  pose proof (bytes_per_pixel_nonneg clock Hwf) as Hb.
  pose proof (clock_row_offset clock Hwf Hy Hfit) as Hoff.
  set (n := String.length text) in *.
  destruct (draw_text_total clock x (clock_y clock) text n) as [chars Hchars].
  assert (0 <= stride < 2 ^ 32 /\ 0 <= 8 * stride < 2 ^ 32 /\ 0 <= top
          /\ top + 8 * stride <= smem_len (finfo clock))
    as (Hl & Hl8 & Htop & Hbot).
  { destruct Hwf as (Hs & Hl & _).
    unfold is_u32, FONT_HEIGHT in *. subst stride top. nia. }
  (* the stores of the characters, pixel by pixel *)
  assert (forall w, w ∈ chars ->
            exists (i : nat) r col b,
              (i < n)%nat /\ 0 <= r < 8 /\ 0 <= col < 8 /\ 0 <= b < bpp /\
              w.1 = top + r * stride + (x + 8 * Z.of_nat i + col) * bpp + b /\
              w.2 = pixel_byte (font8x8_basic (text_char text i) r) col)
    as Hcell.
  { intros w Hw. apply (elem_of_draw_text _ _ _ _ _ _ _ Hchars) in Hw
      as (i & Hi & Hw).
    apply elem_of_glyph_stores_iff in Hw as (r & col & Hr & Hc & Ha & Hv).
    unfold cursor, char_origin in Ha. rewrite Hoff in Ha.
    rewrite pitch_exact in Ha
      by (done || unfold FONT_WIDTH in *; fold bpp stride; nia).
    fold stride bpp top in Ha. unfold FONT_WIDTH in Ha.
    exists i, r, col,
      (w.1 - (top + r * stride + (x + 8 * Z.of_nat i + col) * bpp)).
    repeat split; lia || done. }
  assert (forall (i : nat) col b, (i < n)%nat -> 0 <= col < 8 -> 0 <= b < bpp ->
            x * bpp <= (x + 8 * Z.of_nat i + col) * bpp + b
            < (x + 8 * Z.of_nat n) * bpp) as Hcolumn
    by (intros; unfold FONT_WIDTH in *; nia).
  unfold FONT_WIDTH in Hrow. fold bpp stride in Hrow.
  (* [clear_time], then the characters *)
  destruct (replay_memset top 0 (8 * stride) mem) as (m1 & Hr1 & Hlen1 & Hm1);
    [done | lia |].
  assert (clear_time clock (clock_y clock) = memset top 0 (8 * stride))
    as Hclear.
  { unfold clear_time, strip_start, strip_bytes. rewrite Hoff.
    fold stride top. unfold FONT_HEIGHT.
    by rewrite (wrap32_small (8 * stride)). }
  assert (is_Some (replay chars m1)) as [mem' Hr2].
  { apply replay_is_Some, Forall_forall. intros w Hw. rewrite Hlen1.
    destruct (Hcell w Hw) as (i & r & col & b & Hi & Hr & Hc & Hb' & -> & _).
    pose proof (Hcolumn i col b Hi Hc Hb'). nia. }
  exists (clear_time clock (clock_y clock) ++ chars), mem'.
  split; [unfold tick_stores; fold n; by rewrite Hchars|].
  split; [by rewrite replay_app, Hclear, Hr1|].
  split; [by rewrite (replay_length _ _ _ Hr2)|].
  assert (forall a : nat, Z.of_nat a ∈ chars.*1 ->
            exists (i : nat) r col b,
              (i < n)%nat /\ 0 <= r < 8 /\ 0 <= col < 8 /\ 0 <= b < bpp /\
              Z.of_nat a
              = top + r * stride + (x + 8 * Z.of_nat i + col) * bpp + b)
    as Haddr.
  { intros a Hin. apply list_elem_of_fmap in Hin as (w & -> & Hw).
    destruct (Hcell w Hw) as (i & r & col & b & ? & ? & ? & ? & ? & _).
    by exists i, r, col, b. }
  split; [|split].
  - intros i r col b Hi Hr Hc Hb'.
    pose proof (Hcolumn i col b Hi Hc Hb') as Hu.
    assert (0 <= top + r * stride + (x + 8 * Z.of_nat i + col) * bpp + b)
      as Hpos by nia.
    apply (replay_lookup_written _ _ _ _ _ Hr2).
    + rewrite Z2Nat.id by done. apply list_elem_of_fmap.
      exists (top + r * stride + (x + 8 * Z.of_nat i + col) * bpp + b,
              pixel_byte (font8x8_basic (text_char text i) r) col).
      split; [done|]. apply (elem_of_draw_text _ _ _ _ _ _ _ Hchars).
      exists i. split; [done|]. apply elem_of_glyph_stores_iff.
      exists r, col. unfold cursor, char_origin. rewrite Hoff.
      rewrite pitch_exact by (done || unfold FONT_WIDTH; fold bpp stride; nia).
      fold stride bpp top. unfold FONT_WIDTH. simpl. repeat split; lia.
    + intros w Hw Ha. rewrite Z2Nat.id in Ha by done.
      destruct (Hcell w Hw)
        as (i' & r' & col' & b' & Hi' & Hr' & Hc' & Hb2 & Ha' & ->).
      pose proof (Hcolumn i' col' b' Hi' Hc' Hb2) as Hu'.
      destruct (euclid_unique stride r'
                  ((x + 8 * Z.of_nat i' + col') * bpp + b') r
                  ((x + 8 * Z.of_nat i + col) * bpp + b))
        as [-> He]; [lia | lia | lia |].
      destruct (euclid_unique bpp (x + 8 * Z.of_nat i' + col') b'
                  (x + 8 * Z.of_nat i + col) b) as [Hk _]; [lia | lia | lia |].
      assert (i' = i) as -> by lia. by replace col' with col by lia.
  - intros r c Hr Hc Hout.
    assert (0 <= top + r * stride + c) as Hpos by nia.
    rewrite (replay_lookup_untouched _ _ _ _ Hr2).
    + rewrite Hm1. rewrite decide_True; [done | nia].
    + rewrite Z2Nat.id by done. intros Hin.
      apply list_elem_of_fmap in Hin as (w & Ha & Hw).
      destruct (Hcell w Hw)
        as (i' & r' & col' & b' & Hi' & Hr' & Hc' & Hb2 & Ha' & _).
      pose proof (Hcolumn i' col' b' Hi' Hc' Hb2) as Hu'.
      destruct (euclid_unique stride r'
                  ((x + 8 * Z.of_nat i' + col') * bpp + b') r c)
        as [_ He]; lia.
  - intros a Hout. rewrite (replay_lookup_untouched _ _ _ _ Hr2).
    + rewrite Hm1. by rewrite decide_False.
    + intros Hin. destruct (Haddr a Hin)
        as (i' & r' & col' & b' & Hi' & Hr' & Hc' & Hb2 & Ha').
      pose proof (Hcolumn i' col' b' Hi' Hc' Hb2) as Hu'. apply Hout. nia.
Qed.

End Frame.

(** * More on the render loop *)

Lemma drift_add n m : drift (n + m) = Nat.iter n tick_update (drift m).
Proof. unfold drift. by rewrite Nat.iter_add. Qed.

Lemma drift_first_half k :
  (k <= 16)%nat ->
  drift k = (5 + Z.of_nat k, if (k =? 16)%nat then -1 else 1).
Proof.
  intros Hk. do 17 (destruct k as [|k]; [reflexivity|]). lia.
Qed.

(** Property X14.
    The position repeats every 32 ticks, and within a period the text
    starts once at least in each of the columns 5 to 21. *)
Theorem drift_period :
  (forall n, drift (n + 32) = drift n) /\
  (forall x, 5 <= x <= 21 ->
     exists n, (n <= 16)%nat /\ (drift n).1 = x).
Proof.
  split.
  - intros n. by rewrite drift_add.
  - intros x Hx. exists (Z.to_nat (x - 5)). split; [lia|].
    rewrite drift_first_half by lia. simpl. lia.
Qed.

Lemma drift_period_witness :
  5 <= 13 <= 21 /\ exists n, (n <= 16)%nat /\ (drift n).1 = 13.
Proof.
  assert (Hx : 5 <= 13 <= 21) by lia.
  split; [exact Hx|]. exact (proj2 drift_period 13 Hx).
Defined.

Section Runs.
Context `{GlyphTable}.
Variable W : nat -> world.
Variable clock : FBClock.

Lemma step_stays_in_loop s :
  g_running s = 1 -> in_loop (pc s) = true ->
  g_running (step W clock s) = 1 /\ in_loop (pc (step W clock s)) = true.
Proof.
  intros Hg Hl. rewrite step_g_running. split; [done|].
  destruct s as [l g x dx t n ev]. simpl in *. subst g.
  unfold step. simpl.
  destruct l; simpl; try done;
    repeat match goal with
    | |- context [capacity clock] => destruct (capacity clock)
    | |- context [draw_text clock x ?y t ?k] =>
      destruct (draw_text_total clock x y t k) as [ws ->]
    end; done.
Qed.

(** Property X15.
    Without a signal [run_clock] never leaves its loop: whatever the time
    and the capacity file do, the flag stays up, the program point stays
    inside the loop, and nothing is unmapped or closed. *)
Theorem run_clock_runs_until_signal acts :
  ~ In Sigint acts ->
  let s := exec W clock acts run_clock_init in
  g_running s = 1 /\ in_loop (pc s) = true /\ releases s = [].
Proof.
  intros Hno s.
  assert (g_running s = 1 /\ in_loop (pc s) = true) as [Hg Hl].
  { subst s. induction acts as [|a acts' IH] using rev_ind; [done|].
    rewrite exec_app. destruct a.
    - apply step_stays_in_loop; apply IH; intros Hin; apply Hno;
        apply in_or_app; by left.
    - exfalso. apply Hno, in_or_app. right. by left. }
  split; [done|]. split; [done|].
  subst s. rewrite releases_invariant.
  by destruct (pc (exec W clock acts run_clock_init)).
Qed.

(** Property X16.
    In every run, with signals delivered anywhere, the surface is not
    written after it is unmapped: the events are stores and sleeps,
    followed by the releases that the program point accounts for, the
    [munmap] first and the [close] after it. *)
Theorem stores_precede_munmap acts :
  let s := exec W clock acts run_clock_init in
  exists pre,
    m_events s = pre ++ expected_releases clock (pc s) /\
    Forall (fun e => is_release e = false) pre.
Proof.
  apply exec_invariant.
  - intros [l g x dx t n ev]. unfold step. simpl. intros (pre & -> & Hpre).
    destruct l; simpl in *; rewrite ?app_nil_r in *;
      repeat match goal with
      | |- context [g =? 0] => destruct (g =? 0)
      | |- context [capacity clock] => destruct (capacity clock)
      | |- context [draw_text clock x ?y t ?k] =>
        destruct (draw_text_total clock x y t k) as [ws ->]
      end; simpl; rewrite ?app_nil_r.
    all: match goal with
         | |- exists p, ?e = p ++ _ /\ _ =>
           first [exists e; split; [by rewrite app_nil_r|]
                 |exists pre; split; [by rewrite <- ?app_assoc|]]
         end.
    all: rewrite ?Forall_app; repeat split; try done.
    all: try (apply Forall_fmap, Forall_forall; done).
    all: by repeat constructor.
  - intros [l g x dx t n ev]. done.
  - by exists [].
Qed.

(** Property X17.
    The events of [k] ticks that no signal interrupts are [k] frames, one
    per tick: the frame of tick [j] is the stores of [clear_time] and of
    the text of tick [j] drawn at the position of the drift after [j]
    updates, then one [sleep(1)]. *)
Theorem run_clock_frames k :
  exists frames,
    m_events (exec W clock (repeat Run (8 * k)) run_clock_init)
    = concat frames /\
    length frames = k /\
    forall j, (j < k)%nat ->
      exists ws,
        tick_stores clock (drift j).1 (compose_text (W j) clock) = Some ws /\
        frames !! j = Some ((EvStore <$> ws) ++ [EvSleep 1]).
Proof.
  induction k as [|k (frames & Hev & Hlen & Hfr)].
  - exists []. split; [done|]. split; [done | lia].
  - replace (8 * S k)%nat with (8 * k + 8)%nat by lia.
    rewrite repeat_app, exec_app.
    destruct (run_ticks W clock k) as (Hpc & Hg & Ht & Hd).
    destruct (run_one_tick W clock _ Hpc) as (ws & Hws & ->); [lia|].
    apply (f_equal fst) in Hd. cbn [fst] in Hd.
    rewrite Ht, Hd in Hws. rewrite Hev.
    exists (frames ++ [(EvStore <$> ws) ++ [EvSleep 1]]).
    split; [by rewrite concat_app; cbn [concat]; rewrite app_nil_r|].
    split; [rewrite length_app; simpl; lia|].
    intros j Hj. destruct (decide (j = k)) as [->|Hne].
    + exists ws. split; [done|].
      rewrite lookup_app_r by lia.
      by replace (k - length frames)%nat with 0%nat by lia.
    + destruct (Hfr j) as (ws' & Hws' & Hl); [lia|]. exists ws'.
      split; [done|]. rewrite lookup_app_l by lia. done.
Qed.

End Runs.

Lemma run_clock_runs_until_signal_witness :
  ~ In Sigint (repeat Run 20) /\
  g_running (exec (H := font_A_only) (fun _ => world_no_time) fb_vga_battery
               (repeat Run 20) run_clock_init) = 1 /\
  releases (exec (H := font_A_only) (fun _ => world_no_time) fb_vga_battery
              (repeat Run 20) run_clock_init) = [].
Proof.
  assert (Hno : ~ In Sigint (repeat Run 20)).
  { intros Hin. apply repeat_spec in Hin. discriminate. }
  split; [exact Hno|].
  pose proof (run_clock_runs_until_signal (H := font_A_only)
                (fun _ => world_no_time) fb_vga_battery (repeat Run 20) Hno)
    as (Hg & _ & Hr).
  split; [exact Hg | exact Hr].
Defined.

(** * Edge cases of the renderer and of the composer *)

Section Edges.
Context `{GlyphTable}.

Lemma bind_all_nil {A B} (f : A -> list B) (l : list A) :
  (forall a, f a = []) -> l ≫= f = [].
Proof.
  intros Hf. induction l as [|a l IH]; [done|].
  by rewrite bind_cons, Hf, IH.
Qed.

Lemma glyph_stores_no_bytes clock x y ch :
  bytes_per_pixel clock = 0 -> glyph_stores clock x y ch = [].
Proof.
  intros Hb. unfold glyph_stores. apply bind_all_nil. intros r.
  apply bind_all_nil. intros col. rewrite Hb. by apply memset_nil.
Qed.

(** Property X12.
    On a surface of fewer than eight bits per pixel [bytes_per_pixel] is
    0: [draw_char] stores nothing, and the stores of a tick are those of
    [clear_time] alone, whatever the text and the position. *)
Theorem nothing_drawn_below_8_bits clock :
  0 <= bits_per_pixel (vinfo clock) < 8 ->
  (forall x y ch, exists p, draw_char clock x y ch = Some (p, [])) /\
  (forall x text,
     tick_stores clock x text = Some (clear_time clock (clock_y clock))).
Proof.
  intros Hbits.
  assert (bytes_per_pixel clock = 0) as Hb
    by (unfold bytes_per_pixel; apply Z.div_small; lia).
  split.
  - intros x y ch. eexists. rewrite draw_char_closed.
    by rewrite glyph_stores_no_bytes.
  - intros x text. unfold tick_stores.
    assert (forall n, draw_text clock x (clock_y clock) text n = Some []) as ->.
    { induction n as [|n IH]; [done|]. cbn [draw_text].
      rewrite draw_char_closed, IH. by rewrite glyph_stores_no_bytes. }
    by rewrite app_nil_r.
Qed.

(** Property X13.
    On a surface with whole bytes per pixel and rows at least one glyph
    wide, the stores of [draw_char] all lie in the mapping exactly when
    the origin of the character is not negative and its last row ends in
    the buffer. *)
Theorem draw_char_in_surface_iff clock x y ch :
  wf_geometry clock ->
  0 < bytes_per_pixel clock ->
  FONT_WIDTH * bytes_per_pixel clock <= line_length (finfo clock) ->
  Forall (in_surface clock) (glyph_stores clock x y ch) <->
  0 <= char_origin clock x y /\
  char_origin clock x y + 7 * line_length (finfo clock)
    + FONT_WIDTH * bytes_per_pixel clock <= smem_len (finfo clock).
Proof.
  intros Hwf Hb Hwide. pose proof (pitch_exact clock Hwf Hwide) as Hpitch.
  destruct Hwf as (_ & Hl & _). unfold is_u32, FONT_WIDTH in *.
  rewrite Forall_forall. split.
  - intros Hall. split.
    + specialize (Hall (cursor clock x y 0 0,
                        pixel_byte (font8x8_basic ch 0) 0)).
      unfold in_surface, cursor in Hall. simpl in Hall.
      rewrite Hpitch in Hall.
      assert (0 <= char_origin clock x y + 0 * line_length (finfo clock)
                   + 0 * bytes_per_pixel clock
              < smem_len (finfo clock)); [|lia].
      apply Hall, elem_of_glyph_stores_iff. exists 0, 0.
      unfold cursor. rewrite Hpitch. simpl. repeat split; lia.
    + specialize (Hall (cursor clock x y 7 7 + (bytes_per_pixel clock - 1),
                        pixel_byte (font8x8_basic ch 7) 7)).
      unfold in_surface, cursor in Hall. simpl in Hall.
      rewrite Hpitch in Hall.
      assert (0 <= char_origin clock x y + 7 * line_length (finfo clock)
                   + 7 * bytes_per_pixel clock + (bytes_per_pixel clock - 1)
              < smem_len (finfo clock)); [|lia].
      apply Hall, elem_of_glyph_stores_iff. exists 7, 7.
      unfold cursor. rewrite Hpitch. simpl. repeat split; lia.
  - intros [Ho Hfit] w Hw.
    apply elem_of_glyph_stores_iff in Hw as (r & col & Hr & Hc & Ha & _).
    unfold cursor in Ha. rewrite Hpitch in Ha. unfold in_surface. nia.
Qed.

End Edges.

Lemma nothing_drawn_below_8_bits_witness :
  0 <= bits_per_pixel (vinfo fb_4bpp) < 8 /\
  tick_stores (H := font_A_only) fb_4bpp 5 jan1_2020
  = Some (clear_time fb_4bpp (clock_y fb_4bpp)).
Proof.
  assert (Hbits : 0 <= bits_per_pixel (vinfo fb_4bpp) < 8) by (simpl; lia).
  split; [exact Hbits|].
  exact (proj2 (nothing_drawn_below_8_bits (H := font_A_only) fb_4bpp Hbits)
           5 jan1_2020).
Defined.

Lemma draw_char_in_surface_iff_witness :
  wf_geometry fb_64x64 /\
  0 < bytes_per_pixel fb_64x64 /\
  FONT_WIDTH * bytes_per_pixel fb_64x64 <= line_length (finfo fb_64x64) /\
  (Forall (in_surface fb_64x64)
     (glyph_stores (H := font_A_only) fb_64x64 197 54 10) <->
   0 <= char_origin fb_64x64 197 54 /\
   char_origin fb_64x64 197 54 + 7 * line_length (finfo fb_64x64)
     + FONT_WIDTH * bytes_per_pixel fb_64x64 <= smem_len (finfo fb_64x64)).
Proof.
  assert (Hwf : wf_geometry fb_64x64)
    by (repeat split; vm_compute; congruence).
  assert (Hb : 0 < bytes_per_pixel fb_64x64) by (vm_compute; congruence).
  assert (Hwide : FONT_WIDTH * bytes_per_pixel fb_64x64
                  <= line_length (finfo fb_64x64))
    by (vm_compute; congruence).
  split; [exact Hwf|]. split; [exact Hb|]. split; [exact Hwide|].
  exact (draw_char_in_surface_iff (H := font_A_only) fb_64x64 197 54 10
           Hwf Hb Hwide).
Defined.

Lemma draw_char_renders_glyph_witness :
  wf_geometry fb_8x16 /\
  Z.of_nat (length (replicate 128 7)) = smem_len (finfo fb_8x16) /\
  FONT_WIDTH * bytes_per_pixel fb_8x16 <= line_length (finfo fb_8x16) /\
  0 <= char_origin fb_8x16 0 6 /\
  char_origin fb_8x16 0 6 + 7 * line_length (finfo fb_8x16)
    + FONT_WIDTH * bytes_per_pixel fb_8x16 <= smem_len (finfo fb_8x16) /\
  exists p ws mem',
    draw_char (H := font_A_only) fb_8x16 0 6 65 = Some (p, ws) /\
    replay ws (replicate 128 7) = Some mem' /\
    mem' !! 50%nat = Some 255 /\
    mem' !! 47%nat = Some 7.
Proof.
  assert (Hwf : wf_geometry fb_8x16) by (repeat split; vm_compute; congruence).
  assert (Hlen : Z.of_nat (length (replicate 128 7))
                 = smem_len (finfo fb_8x16)) by reflexivity.
  assert (Hwide : FONT_WIDTH * bytes_per_pixel fb_8x16
                  <= line_length (finfo fb_8x16)) by (vm_compute; congruence).
  assert (Ho : 0 <= char_origin fb_8x16 0 6) by (vm_compute; congruence).
  assert (Hfit : char_origin fb_8x16 0 6 + 7 * line_length (finfo fb_8x16)
                 + FONT_WIDTH * bytes_per_pixel fb_8x16
                 <= smem_len (finfo fb_8x16)) by (vm_compute; congruence).
  split; [exact Hwf|]. split; [exact Hlen|]. split; [exact Hwide|].
  split; [exact Ho|]. split; [exact Hfit|].
  destruct (draw_char_renders_glyph (H := font_A_only) fb_8x16 0 6 65
              (replicate 128 7) Hwf Hlen Hwide Ho Hfit)
    as (p & ws & mem' & Hd & Hr & _ & Hpix & Hout).
  exists p, ws, mem'. split; [exact Hd|]. split; [exact Hr|]. split.
  - exact (Hpix 0 2 0 ltac:(lia) ltac:(lia)
             ltac:(vm_compute; split; congruence)).
  - rewrite (Hout 47%nat); [reflexivity|].
    intros r col Hr' Hc. vm_compute (char_origin fb_8x16 0 6).
    vm_compute (line_length (finfo fb_8x16)).
    vm_compute (bytes_per_pixel fb_8x16). lia.
Defined.

Lemma tick_renders_text_witness :
  wf_geometry fb_32x12 /\
  Z.of_nat (length (replicate 384 7)) = smem_len (finfo fb_32x12) /\
  FONT_HEIGHT + 2 <= yres (vinfo fb_32x12) /\
  yres (vinfo fb_32x12) * line_length (finfo fb_32x12)
    <= smem_len (finfo fb_32x12) /\
  0 <= 5 /\
  (5 + FONT_WIDTH * Z.of_nat (String.length "A")) * bytes_per_pixel fb_32x12
    <= line_length (finfo fb_32x12) /\
  exists ws mem',
    tick_stores (H := font_A_only) fb_32x12 5 "A" = Some ws /\
    replay ws (replicate 384 7) = Some mem' /\
    mem' !! 71%nat = Some 255 /\
    mem' !! 64%nat = Some 0 /\
    mem' !! 63%nat = Some 7.
Proof.
  assert (Hwf : wf_geometry fb_32x12)
    by (repeat split; vm_compute; congruence).
  assert (Hlen : Z.of_nat (length (replicate 384 7))
                 = smem_len (finfo fb_32x12)) by reflexivity.
  assert (Hy : FONT_HEIGHT + 2 <= yres (vinfo fb_32x12))
    by (vm_compute; congruence).
  assert (Hfit : yres (vinfo fb_32x12) * line_length (finfo fb_32x12)
                 <= smem_len (finfo fb_32x12)) by (vm_compute; congruence).
  assert (Hx : 0 <= 5) by lia.
  assert (Hrow : (5 + FONT_WIDTH * Z.of_nat (String.length "A"))
                 * bytes_per_pixel fb_32x12 <= line_length (finfo fb_32x12))
    by (vm_compute; congruence).
  split; [exact Hwf|]. split; [exact Hlen|]. split; [exact Hy|].
  split; [exact Hfit|]. split; [exact Hx|]. split; [exact Hrow|].
  destruct (tick_renders_text (H := font_A_only) fb_32x12 5 "A"
              (replicate 384 7) Hwf Hlen Hy Hfit Hx Hrow)
    as (ws & mem' & Ht & Hr & _ & Hpix & Hback & Hout).
  exists ws, mem'. split; [exact Ht|]. split; [exact Hr|]. split; [|split].
  - exact (Hpix 0%nat 0 2 0 ltac:(simpl; lia) ltac:(lia) ltac:(lia)
             ltac:(vm_compute; split; congruence)).
  - exact (Hback 0 0 ltac:(lia) ltac:(vm_compute; split; congruence)
             ltac:(vm_compute; intros [? ?]; congruence)).
  - rewrite (Hout 63%nat); [reflexivity|]. vm_compute. intros [? ?]. congruence.
Defined.

Lemma capacity_read_small :
  forallb (fun n => bool_decide (capacity_read n = Some n)) (seqZ 0 1000)
  = true.
Proof. vm_compute. reflexivity. Qed.

Lemma capacity_read_four_digits :
  forallb (fun n => bool_decide (capacity_read n = Some (n / 10)))
          (seqZ 1000 9000) = true.
Proof. vm_compute. reflexivity. Qed.

Lemma forallb_seqZ (f : Z -> bool) m len n :
  forallb f (seqZ m len) = true -> m <= n < m + len -> f n = true.
Proof.
  intros Hall Hn. rewrite forallb_forall in Hall. apply Hall.
  apply list_elem_of_In, elem_of_seqZ. lia.
Qed.

Lemma add_power_level_read w path text file line :
  fopen w path = Some file -> fgets 4 file = Some line ->
  add_power_level_to_text w path text
  = (text ++ "- " ++ print_d (atoi line) ++ "%")%string.
Proof.
  intros Hf Hg. unfold add_power_level_to_text. by rewrite Hf, Hg.
Qed.

(** Property X18.
    A capacity file that holds a number from 0 to 999 and a newline gives
    the suffix with that same number: [fgets], [atoi] and the conversion
    [%d] together return what the file holds. *)
Theorem capacity_suffix_round_trip w path text n :
  0 <= n <= 999 ->
  fopen w path = Some (capacity_file (print_d n ++ line_end)) ->
  add_power_level_to_text w path text
  = (text ++ "- " ++ print_d n ++ "%")%string.
Proof.
  intros Hn Hf.
  pose proof (forallb_seqZ _ 0 1000 n capacity_read_small ltac:(lia)) as Hr.
  apply bool_decide_eq_true in Hr. unfold capacity_read in Hr.
  destruct (fgets 4 (capacity_file (print_d n ++ line_end))) as [line|] eqn:Hg;
    [|done].
  injection Hr as Hr. rewrite (add_power_level_read w path text _ line Hf Hg).
  by rewrite Hr.
Qed.

Lemma capacity_suffix_round_trip_witness :
  0 <= 100 <= 999 /\
  fopen (world_capacity 100) battery_path
  = Some (capacity_file (print_d 100 ++ line_end)) /\
  add_power_level_to_text (world_capacity 100) battery_path jan1_2020
  = (jan1_2020 ++ "- " ++ print_d 100 ++ "%")%string.
Proof.
  assert (Hn : 0 <= 100 <= 999) by lia.
  assert (Hf : fopen (world_capacity 100) battery_path
               = Some (capacity_file (print_d 100 ++ line_end)))
    by reflexivity.
  split; [exact Hn|]. split; [exact Hf|].
  exact (capacity_suffix_round_trip (world_capacity 100) battery_path
           jan1_2020 100 Hn Hf).
Defined.

(** Property X19.
    [fgets(capacity, 4, file)] keeps three characters: of a capacity file
    that holds a number of four digits, the suffix shows the first
    three. *)
Theorem capacity_four_digits_cut w path text n :
  1000 <= n <= 9999 ->
  fopen w path = Some (capacity_file (print_d n ++ line_end)) ->
  add_power_level_to_text w path text
  = (text ++ "- " ++ print_d (n / 10) ++ "%")%string.
Proof.
  intros Hn Hf.
  pose proof (forallb_seqZ _ 1000 9000 n capacity_read_four_digits ltac:(lia))
    as Hr.
  apply bool_decide_eq_true in Hr. unfold capacity_read in Hr.
  destruct (fgets 4 (capacity_file (print_d n ++ line_end))) as [line|] eqn:Hg;
    [|done].
  injection Hr as Hr. rewrite (add_power_level_read w path text _ line Hf Hg).
  by rewrite Hr.
Qed.

Lemma capacity_four_digits_cut_witness :
  1000 <= 1234 <= 9999 /\
  fopen (world_capacity 1234) battery_path
  = Some (capacity_file (print_d 1234 ++ line_end)) /\
  add_power_level_to_text (world_capacity 1234) battery_path jan1_2020
  = (jan1_2020 ++ "- 123%")%string.
Proof.
  assert (Hn : 1000 <= 1234 <= 9999) by lia.
  assert (Hf : fopen (world_capacity 1234) battery_path
               = Some (capacity_file (print_d 1234 ++ line_end)))
    by reflexivity.
  split; [exact Hn|]. split; [exact Hf|].
  exact (capacity_four_digits_cut (world_capacity 1234) battery_path
           jan1_2020 1234 Hn Hf).
Defined.

(** Property X20.
    A capacity file whose first character is neither white space, nor a
    sign, nor a digit gives the suffix of the number 0, whatever
    follows. *)
Theorem capacity_not_a_number w path text a rest :
  isspace a = false -> isdigit a = false ->
  a <> "-"%char -> a <> "+"%char ->
  fopen w path = Some (capacity_file (String a rest)) ->
  add_power_level_to_text w path text = (text ++ "- 0%")%string.
Proof.
  intros Hs Hd Hm Hp Hf.
  rewrite (add_power_level_read w path text _
             (fgets_line 3 (String a rest)) Hf) by done.
  do 2 f_equal. cbn [fgets_line]. unfold atoi. cbn [skip_spaces].
  rewrite Hs.
  assert (forall s, atoi_digits (String a s) 0 = 0) as Hz
    by (intros s; simpl; by rewrite Hd).
  destruct a as [[] [] [] [] [] [] [] []]; try done; by rewrite Hz.
Qed.

Lemma capacity_not_a_number_witness :
  isspace "F" = false /\ isdigit "F" = false /\
  "F"%char <> "-"%char /\ "F"%char <> "+"%char /\
  add_power_level_to_text
    {| time := None; localtime := fun _ => None; asctime := fun _ => None;
       fopen := fun _ => Some (capacity_file "Full");
       stale_capacity := EmptyString |} battery_path time_placeholder
  = "Error getting time!- 0%"%string.
Proof.
  assert (Hs : isspace "F" = false) by reflexivity.
  assert (Hd : isdigit "F" = false) by reflexivity.
  assert (Hm : "F"%char <> "-"%char) by discriminate.
  assert (Hp : "F"%char <> "+"%char) by discriminate.
  split; [exact Hs|]. split; [exact Hd|]. split; [exact Hm|].
  split; [exact Hp|].
  exact (capacity_not_a_number
           {| time := None; localtime := fun _ => None;
              asctime := fun _ => None;
              fopen := fun _ => Some (capacity_file "Full");
              stale_capacity := EmptyString |}
           battery_path time_placeholder "F" "ull" Hs Hd Hm Hp eq_refl).
Defined.
